(** * Single gene deletion driver ([knockout.py]): a shallow embedding

    The Python module is a thin orchestration layer around the cobra
    library.  Everything cobra, pandas, the shell and the operating system
    do is kept behind the [External] interface below, except for the few
    library calls whose documented behaviour the claims are about
    ([DataFrame.to_csv], text-mode [readlines], word splitting by
    [/bin/sh]), which are written out; what [knockout.py]
    itself computes (extension dispatch, exception translation, output
    naming, the gene table, the result file, the gene list read by the
    command line) is translated function by function.

    Conventions.
    - A Python [str] is a [string]; [str.lower] is modelled on the ASCII
      letters only.
    - A computation that can raise returns a [result]; a computation that
      touches the file system, the log or a collaborator threads a [World].
    - [add_log] (module [add_log], not part of the file under study) only
      supplies the [logger] attribute; a call [f.logger.info(msg)] appends
      an entry tagged with the name of [f] to the log of the world. *)

From Stdlib Require Import Ascii String List Bool Arith Lia.
From stdpp Require Import base option list strings gmap pretty.

Local Open Scope string_scope.
#[local] Set Warnings "-clear-no-such-hyp".

(** ** Characters and the string methods used by the module *)

Definition LF : ascii := ascii_of_nat 10.
Definition CR : ascii := ascii_of_nat 13.
Definition TAB : ascii := ascii_of_nat 9.
Definition SPACE : ascii := ascii_of_nat 32.
Definition DQUOTE : ascii := ascii_of_nat 34.
Definition DOT : ascii := ".".
Definition SLASH : ascii := "/".

Definition str1 (c : ascii) : string := String c EmptyString.

(** [c in chars] for a character and a string. *)
Fixpoint char_in (c : ascii) (chars : string) : bool :=
  match chars with
  | EmptyString => false
  | String d rest => Ascii.eqb c d || char_in c rest
  end.

(** [s.split(sep)] for a one-character separator: never returns [[]]. *)
Fixpoint split (sep : ascii) (s : string) : list string :=
  match s with
  | EmptyString => [EmptyString]
  | String c rest =>
      if Ascii.eqb c sep then EmptyString :: split sep rest
      else match split sep rest with
           | [] => [str1 c]
           | w :: ws => String c w :: ws
           end
  end.

(** [l[-1]] and [l[0]] on the lists produced by [split]; the default is
    only there for typing, see [split_nonempty]. *)
Definition index_last (l : list string) : string := List.last l EmptyString.
Definition index_first (l : list string) : string := List.hd EmptyString l.

Definition lower_char (c : ascii) : ascii :=
  let n := nat_of_ascii c in
  if ((65 <=? n) && (n <=? 90))%nat then ascii_of_nat (n + 32) else c.

(** [s.lower()] *)
Fixpoint lower (s : string) : string :=
  match s with
  | EmptyString => EmptyString
  | String c rest => String (lower_char c) (lower rest)
  end.

(** [s.lstrip(chars)], [s.rstrip(chars)], [s.strip(chars)] *)
Fixpoint lstrip (chars : string) (s : string) : string :=
  match s with
  | EmptyString => EmptyString
  | String c rest => if char_in c chars then lstrip chars rest else s
  end.

Fixpoint rstrip (chars : string) (s : string) : string :=
  match s with
  | EmptyString => EmptyString
  | String c rest =>
      match rstrip chars rest with
      | EmptyString => if char_in c chars then EmptyString else str1 c
      | kept => String c kept
      end
  end.

Definition strip (chars : string) (s : string) : string :=
  rstrip chars (lstrip chars s).

(** [sep.join(l)] *)
Fixpoint join (sep : string) (l : list string) : string :=
  match l with
  | [] => EmptyString
  | [x] => x
  | x :: rest => x +:+ sep +:+ join sep rest
  end.

Fixpoint concat_str (l : list string) : string :=
  match l with
  | [] => EmptyString
  | x :: rest => x +:+ concat_str rest
  end.

(** *** Reading a text file line by line *)

(** [open(path)] opens in text mode with [newline=None]: while reading,
    every ["\r\n"] and every lone ["\r"] is handed to the program as
    ["\n"]. *)
Fixpoint universal_newlines (raw : string) : string :=
  match raw with
  | EmptyString => EmptyString
  | String c rest =>
      if Ascii.eqb c CR then
        match rest with
        | String d _ =>
            if Ascii.eqb d LF then universal_newlines rest
            else String LF (universal_newlines rest)
        | EmptyString => str1 LF
        end
      else String c (universal_newlines rest)
  end.

(** Cutting a text after every ["\n"], the line ends kept. *)
Fixpoint keepends (text : string) : list string :=
  match text with
  | EmptyString => []
  | String c rest =>
      if Ascii.eqb c LF then str1 LF :: keepends rest
      else match keepends rest with
           | [] => [str1 c]
           | l :: ls => String c l :: ls
           end
  end.

(** [fd.readlines()] on a file whose stored text is [raw] *)
Definition readlines (raw : string) : list string :=
  keepends (universal_newlines raw).

(** [[gene.strip("\n") for gene in fd.readlines()]] *)
Definition read_gene_list (raw : string) : list string :=
  map (strip (str1 LF)) (readlines raw).

(** *** Word splitting by the shell *)

(** How [/bin/sh] reads a character of a command line.  Only command
    lines made of ordinary characters, blanks and [#] are covered;
    quoting, expansion, globbing, operators and comments are not. *)
Inductive sh_class := ShBlank | ShPlain | ShHash | ShOther.

Definition sh_classify (c : ascii) : sh_class :=
  let n := nat_of_ascii c in
  if (Ascii.eqb c SPACE || Ascii.eqb c TAB) then ShBlank
  else if Ascii.eqb c "#" then ShHash
  else if (((48 <=? n) && (n <=? 57)) || ((65 <=? n) && (n <=? 90))
           || ((97 <=? n) && (n <=? 122)))%nat then ShPlain
  else if char_in c "@%+=:,./-_" then ShPlain
  else ShOther.

(** The fields of a simple command; [cur] is the word being read.  A [#]
    inside a word is an ordinary character, a [#] that starts a word
    opens a comment (not covered). *)
Fixpoint sh_fields (cur : string) (cmd : string) : option (list string) :=
  match cmd with
  | EmptyString =>
      Some (match cur with EmptyString => [] | _ => [cur] end)
  | String c rest =>
      match sh_classify c with
      | ShBlank =>
          match cur with
          | EmptyString => sh_fields EmptyString rest
          | _ => cons cur <$> sh_fields EmptyString rest
          end
      | ShPlain => sh_fields (cur +:+ str1 c) rest
      | ShHash =>
          match cur with
          | EmptyString => None
          | _ => sh_fields (cur +:+ str1 c) rest
          end
      | ShOther => None
      end
  end.

(** A word [mkdir] would read as an option rather than as a path. *)
Definition option_like (a : string) : bool :=
  match a with
  | String c _ => Ascii.eqb c "-"
  | EmptyString => false
  end.

(** The paths [mkdir] is asked to create when the shell runs [cmd]: the
    fields after [mkdir -p].  A command in which one of them starts with
    a dash is not covered, since [mkdir] reads such a word as an option
    ([-v], [-m 0], [--]) and not as a path. *)
Definition mkdir_p_args (cmd : string) : option (list string) :=
  match sh_fields EmptyString cmd with
  | Some (prog :: opt :: args) =>
      if String.eqb prog "mkdir" && String.eqb opt "-p"
         && forallb (λ a, negb (option_like a)) args
      then Some args else None
  | _ => None
  end.

(** ** Exceptions *)

(** The exception classes the module raises, catches or lets through.
    [IOError] is an alias of [OSError] in Python 3, and
    [FileNotFoundError] and [PermissionError] are subclasses of it. *)
Inductive exn_class :=
  | KeyError | IndexError | AttributeError | ValueError
  | OSError | FileNotFoundError | PermissionError
  | CalledProcessError | OtherError.

Record exn := Exn { exn_cls : exn_class; exn_arg : string }.

(** [except KeyError] *)
Definition catches_KeyError (e : exn) : bool :=
  match exn_cls e with KeyError => true | _ => false end.

(** [except IOError] *)
Definition catches_IOError (e : exn) : bool :=
  match exn_cls e with
  | OSError | FileNotFoundError | PermissionError => true
  | _ => false
  end.

Inductive result (A : Type) :=
  | Ok (a : A)
  | Raise (e : exn).
Arguments Ok {A} a.
Arguments Raise {A} e.

(** [d[k]] on a dict with string keys *)
Definition getitem {V} (d : gmap string V) (k : string) : result V :=
  match d !! k with
  | Some v => Ok v
  | None => Raise (Exn KeyError k)
  end.

(** ** The world: file system, log, and calls to the collaborators *)

Inductive Format := Sbml | Json | Matlab.

(** Paths are compared as strings; two spellings of one location are two
    paths here. *)
Record FS := mkFS {
  files : gmap string string;
  dirs : gset string
}.

(** [os.path.exists] *)
Definition path_exists (f : FS) (p : string) : bool :=
  bool_decide (p ∈ dom (files f)) || bool_decide (p ∈ dirs f).

(** [os.path.isdir] *)
Definition is_dir (f : FS) (p : string) : bool := bool_decide (p ∈ dirs f).

(** The text before the last [sep] of [s] (empty when there is none). *)
Fixpoint before_last (sep : ascii) (s : string) : string :=
  match s with
  | EmptyString => EmptyString
  | String c rest =>
      if char_in sep rest then String c (before_last sep rest) else EmptyString
  end.

(** The directory a path lies in: what precedes its last slash, [/] for
    a path directly under the root, [.] for a path without a slash. *)
Definition parent_dir (path : string) : string :=
  if char_in SLASH path then
    match before_last SLASH path with
    | EmptyString => "/"
    | d => d
    end
  else ".".

Inductive log_entry :=
  | LogInfo (logger : string) (msg : string)
  | LogCounter (logger : string) (counts : list (string * nat)).

Record World := mkWorld {
  fs : FS;
  log : list log_entry;
  parser_calls : list (Format * string);
  shell_calls : list string
}.

Definition set_fs (f : FS) (w : World) : World :=
  mkWorld f (log w) (parser_calls w) (shell_calls w).
Definition add_log (e : log_entry) (w : World) : World :=
  mkWorld (fs w) (log w ++ [e]) (parser_calls w) (shell_calls w).
Definition add_parser_call (c : Format * string) (w : World) : World :=
  mkWorld (fs w) (log w) (parser_calls w ++ [c]) (shell_calls w).
Definition add_shell_call (c : string) (w : World) : World :=
  mkWorld (fs w) (log w) (parser_calls w) (shell_calls w ++ [c]).

(** A small state-and-exception monad: the world is kept when an
    exception is raised, as Python keeps the effects done so far. *)
Definition M (A : Type) : Type := World → World * result A.

Definition ret {A} (a : A) : M A := λ w, (w, Ok a).
Definition raise {A} (e : exn) : M A := λ w, (w, Raise e).
Definition bind {A B} (m : M A) (k : A → M B) : M B := λ w,
  match m w with
  | (w', Ok a) => k a w'
  | (w', Raise e) => (w', Raise e)
  end.
Definition lift {A} (r : result A) : M A := λ w, (w, r).
Definition modify (f : World → World) : M unit := λ w, (f w, Ok tt).
Definition get_fs : M FS := λ w, (w, Ok (fs w)).

Notation "'let*' x := m 'in' k" := (bind m (λ x, k))
  (at level 10, x name, m at level 100, k at level 200,
   format "'[v' 'let*'  x  :=  m  'in'  '/' k ']'").

(** [logger.info(msg)] on the logger that [add_log] attached to [name]. *)
Definition logger_info (name msg : string) : M unit :=
  modify (add_log (LogInfo name msg)).

(** ** Collaborators *)

Record Gene := mkGene { gene_id : string; gene_name : string }.

(** One row of the frame returned by [single_gene_deletion].  [ids] is a
    frozenset in Python; the list is the order in which [list(x)]
    enumerates it. *)
Record Row (Float : Type) := mkRow {
  ids : list string;
  growth : Float;
  status : string
}.
Arguments mkRow {Float}.
Arguments ids {Float}.
Arguments growth {Float}.
Arguments status {Float}.

Inductive Platform := Posix | Windows.

(** [os.linesep] *)
Definition linesep_of (p : Platform) : string :=
  match p with
  | Posix => str1 LF
  | Windows => String CR (str1 LF)
  end.

Class External := {
  (** [cobra.Model] and its [genes] attribute *)
  Model : Type;
  genes : Model → list Gene;
  (** keyword arguments handed on to the parser *)
  Kwargs : Type;
  no_kwargs : Kwargs;
  (** [read_sbml_model], [load_json_model], [load_matlab_model] *)
  parser : Format → FS → string → Kwargs → result Model;
  (** floating point numbers and how [to_csv] prints them *)
  Float : Type;
  float_str : Float → string;
  (** [cobra.flux_analysis.single_gene_deletion(model, gene_list, method)] *)
  single_gene_deletion :
    option Model → option (list string) → string → result (list (Row Float));
  (** [/bin/sh -c cmd]: the new file system and the exit status *)
  shell : string → FS → FS * nat;
  (** the host platform, which fixes [os.linesep] *)
  host : Platform
}.

(** ** The program *)

Section Program.
Context `{E : External}.

(** [funcs_dict] of [load_model_from_file] *)
Definition funcs_dict : gmap string Format :=
  {[ "xml" := Sbml; "json" := Json; "mat" := Matlab ]}.

(** [file.lower().split('.')[-1]] *)
Definition file_ext_of (file : string) : string :=
  index_last (split DOT (lower file)).

(** Calling the function stored in [funcs_dict]: the call is recorded,
    then the parser reads the file. *)
Definition call_parser (fmt : Format) (file : string) (kw : Kwargs) : M Model :=
  λ w, let w' := add_parser_call (fmt, file) w in
       (w', parser fmt (fs w') file kw).

(** The [try] body: [funcs_dict[file_ext](file, **kwargs)] *)
Definition load_try (file_ext file : string) (kw : Kwargs) : M Model :=
  let* f := lift (getitem funcs_dict file_ext) in
  call_parser f file kw.

(** The two [except] clauses, tried in order on whatever the body
    raised; any other exception goes through. *)
Definition load_except (file_ext file : string) (m : M Model) : M Model :=
  λ w, match m w with
       | (w', Ok model_obj) => (w', Ok model_obj)
       | (w', Raise e) =>
           if catches_KeyError e then
             (w', Raise (Exn FileNotFoundError ("error " +:+ file_ext)))
           else if catches_IOError e then
             (w', Raise (Exn OSError ("error " +:+ file)))
           else (w', Raise e)
       end.

Definition load_model_from_file (file : string) (kw : Kwargs) : M Model :=
  let* f := get_fs in
  if negb (path_exists f file) then
    raise (Exn FileNotFoundError ("Not Found " +:+ file))
  else
    let file_ext := file_ext_of file in
    let* _ := logger_info "load_model_from_file" file_ext in
    load_except file_ext file (load_try file_ext file kw).

(** The attributes of a [Knockout] object. *)
Record Knockout := mkKnockout {
  model_file : string;
  outdir : string;
  method : string;
  gene_list : option (list string);
  model_obj : option Model;
  gene_info : gmap string string;
  out_name : string;
  out_res : string
}.

(** [subprocess.check_call(cmd, shell=True)] *)
Definition check_call (cmd : string) : M unit :=
  λ w, let '(f', code) := shell cmd (fs w) in
       let w' := set_fs f' (add_shell_call cmd w) in
       match code with
       | O => (w', Ok tt)
       | S _ => (w', Raise (Exn CalledProcessError cmd))
       end.

(** [self.model_file.split("/")[-1].split(".")[0]] *)
Definition out_name_of (model_file : string) : string :=
  index_first (split DOT (index_last (split SLASH model_file))).

(** [f"{self.outdir}/{self.out_name}_knock_res.txt"] *)
Definition out_res_of (outdir out_name : string) : string :=
  outdir +:+ "/" +:+ out_name +:+ "_knock_res.txt".

(** [Knockout.__init__] *)
Definition Knockout_init (model_file outdir method : string) : M Knockout :=
  let out_name := out_name_of model_file in
  let self := mkKnockout model_file outdir method None None ∅
                out_name (out_res_of outdir out_name) in
  let* f := get_fs in
  if negb (path_exists f outdir) then
    let* _ := check_call ("mkdir -p " +:+ outdir) in
    ret self
  else ret self.

(** [Knockout.set_gene_list] *)
Definition set_gene_list (self : Knockout) (gl : list string) : Knockout :=
  mkKnockout (model_file self) (outdir self) (method self) (Some gl)
    (model_obj self) (gene_info self) (out_name self) (out_res self).

Definition set_model_obj (self : Knockout) (m : Model) : Knockout :=
  mkKnockout (model_file self) (outdir self) (method self) (gene_list self)
    (Some m) (gene_info self) (out_name self) (out_res self).

Definition set_gene_info (self : Knockout) (g : gmap string string) : Knockout :=
  mkKnockout (model_file self) (outdir self) (method self) (gene_list self)
    (model_obj self) g (out_name self) (out_res self).

(** The loop [for r in genes: gene_info.update({r.id: r.name})] *)
Definition update_gene_info (g : gmap string string) (gs : list Gene)
  : gmap string string :=
  foldl (λ acc r, <[gene_id r := gene_name r]> acc) g gs.

(** [Knockout.parse_gene_info_from_model] *)
Definition parse_gene_info_from_model (self : Knockout) : M Knockout :=
  match model_obj self with
  | None => raise (Exn AttributeError "genes")
  | Some m =>
      let self' := set_gene_info self (update_gene_info (gene_info self) (genes m)) in
      let* _ := logger_info "parse_gene_info_from_model"
                  ("Total Genes: " +:+ pretty (size (gene_info self'))) in
      ret self'
  end.

(** [Knockout.load_data] *)
Definition load_data (self : Knockout) : M Knockout :=
  let* m := load_model_from_file (model_file self) no_kwargs in
  parse_gene_info_from_model (set_model_obj self m).

(** *** The result table *)

(** [list(x)[0]] *)
Definition first_of_set (x : list string) : result string :=
  match x with
  | [] => Raise (Exn IndexError "list index out of range")
  | a :: _ => Ok a
  end.

(** [Series.apply(f)]: [f] on every cell in order, the first exception
    ends the call. *)
Fixpoint apply_series {A B} (f : A → result B) (col : list A) : result (list B) :=
  match col with
  | [] => Ok []
  | x :: rest =>
      match f x with
      | Raise e => Raise e
      | Ok y => match apply_series f rest with
                | Raise e => Raise e
                | Ok ys => Ok (y :: ys)
                end
      end
  end.

(** [collections.Counter(l)], keys in order of first occurrence *)
Fixpoint counter_add (k : string) (c : list (string * nat)) : list (string * nat) :=
  match c with
  | [] => [(k, 1)]
  | (k', n) :: rest =>
      if String.eqb k k' then (k', S n) :: rest else (k', n) :: counter_add k rest
  end.
Definition Counter (l : list string) : list (string * nat) :=
  foldl (λ c k, counter_add k c) [] l.

(** The csv writer behind [to_csv] with [sep="\\t"] and minimal quoting,
    for the line terminator [lt]: a cell is quoted when it holds the
    delimiter, the quote character or a character of [lt], and quote
    characters inside a quoted cell are doubled. *)
Definition csv_special (lt : string) (c : ascii) : bool :=
  Ascii.eqb c TAB || Ascii.eqb c DQUOTE || char_in c lt.

Fixpoint has_special (lt : string) (s : string) : bool :=
  match s with
  | EmptyString => false
  | String c rest => csv_special lt c || has_special lt rest
  end.

Fixpoint double_quotes (s : string) : string :=
  match s with
  | EmptyString => EmptyString
  | String c rest =>
      if Ascii.eqb c DQUOTE then String DQUOTE (String DQUOTE (double_quotes rest))
      else String c (double_quotes rest)
  end.

Definition csv_cell (lt : string) (s : string) : string :=
  if has_special lt s then String DQUOTE (double_quotes s +:+ str1 DQUOTE) else s.

Definition csv_line (lt : string) (cells : list string) : string :=
  join (str1 TAB) (map (csv_cell lt) cells) +:+ lt.

(** The frame after the two column assignments: one record per row. *)
Record OutRow := mkOutRow {
  o_ids : string;
  o_growth : Float;
  o_status : string;
  o_name : string
}.

Definition out_cells (r : OutRow) : list string :=
  [o_ids r; float_str (o_growth r); o_status r; o_name r].

(** The text written by [to_csv(path, sep="\\t", index=None)]: the header
    row, then the rows, no index column; the line terminator is
    [os.linesep]. *)
Definition to_csv_text (rows : list OutRow) : string :=
  let lt := linesep_of host in
  csv_line lt ["ids"; "growth"; "status"; "name"]
  +:+ concat_str (map (λ r, csv_line lt (out_cells r)) rows).

(** Writing the text of [to_csv] to [path].  [to_csv] refuses, with an
    [OSError] naming the directory, a path whose directory does not
    exist, and a directory cannot be opened as a file; otherwise opening
    the path for writing truncates what was there.  Other failures of the
    operating system (permissions, a full disk) are not modelled. *)
Definition write_file (path text : string) : M unit :=
  λ w, if negb (is_dir (fs w) (parent_dir path)) then
         (w, Raise (Exn OSError (parent_dir path)))
       else if is_dir (fs w) path then (w, Raise (Exn OSError path))
       else (set_fs (mkFS (<[path := text]> (files (fs w))) (dirs (fs w))) w,
             Ok tt).

Definition zip_rows (table : list (Row Float)) (idcol namecol : list string)
  : list OutRow :=
  zip_with (λ '(r, i) n, mkOutRow i (growth r) (status r) n)
    (zip table idcol) namecol.

(** [Knockout.run_knockout] *)
Definition run_knockout (self : Knockout) : M unit :=
  let* gene_status :=
    lift (single_gene_deletion (model_obj self) (gene_list self) (method self)) in
  let* idcol := lift (apply_series first_of_set (map ids gene_status)) in
  let* namecol := lift (apply_series (getitem (gene_info self)) idcol) in
  let* _ := modify (add_log (LogCounter "run_knockout"
                               (Counter (map status gene_status)))) in
  write_file (out_res self) (to_csv_text (zip_rows gene_status idcol namecol)).

(** *** The command line *)

(** The parsed options of [main]. *)
Record Args := mkArgs {
  arg_model_file : string;
  arg_outdir : string;
  arg_method : string;
  arg_gene_list : option string
}.

(** [open(path)] for reading, then the whole stored text. *)
Definition open_read (path : string) : M string :=
  λ w, match files (fs w) !! path with
       | Some raw => (w, Ok raw)
       | None =>
           let cls := if bool_decide (path ∈ dirs (fs w)) then OSError
                      else FileNotFoundError in
           (w, Raise (Exn cls path))
       end.

(** The [if args.gene_list is not None:] block of [main] *)
Definition main_gene_list (gl : option string) (runner : Knockout) : M Knockout :=
  match gl with
  | None => ret runner
  | Some path =>
      let* raw := open_read path in
      ret (set_gene_list runner (read_gene_list raw))
  end.

(** [main], from the parsed options on *)
Definition main (args : Args) : M unit :=
  let* runner := Knockout_init (arg_model_file args) (arg_outdir args)
                   (arg_method args) in
  let* runner := main_gene_list (arg_gene_list args) runner in
  let* runner := load_data runner in
  run_knockout runner.

End Program.

(** ** A small concrete instance of the collaborators

    Used to run the program on concrete inputs: a model is its gene list,
    a number is its decimal text, a parser reads the genes from the stored
    text one [id=name] pair per line, and the deletion routine reports one
    row per listed gene. *)
Module Toy.

Definition gene_of_line (l : string) : Gene :=
  match split "=" l with
  | [i; n] => mkGene i n
  | _ => mkGene l l
  end.

Definition toy_parser (fmt : Format) (f : FS) (file : string) (_ : unit)
  : result (list Gene) :=
  match files f !! file with
  | None => Raise (Exn OSError file)
  | Some raw =>
      if String.eqb raw "KEY" then Raise (Exn KeyError "species")
      else Ok (map gene_of_line (read_gene_list raw))
  end.

Definition toy_row (i : string) : Row string :=
  mkRow [i] (if String.eqb i "B" then "0.0" else "0.5")
        (if String.eqb i "B" then "infeasible" else "optimal").

Definition toy_deletion (m : option (list Gene)) (gl : option (list string))
    (method : string) : result (list (Row string)) :=
  match m with
  | None => Raise (Exn AttributeError "genes")
  | Some gs =>
      Ok (map toy_row (match gl with Some l => l | None => map gene_id gs end))
  end.

(** The toy shell creates nothing and reports success. *)
Definition toy_shell (cmd : string) (f : FS) : FS * nat := (f, 0).

#[local] Instance toy : External := {|
  Model := list Gene;
  genes := λ m, m;
  Kwargs := unit;
  no_kwargs := tt;
  parser := toy_parser;
  Float := string;
  float_str := λ x, x;
  single_gene_deletion := toy_deletion;
  shell := toy_shell;
  host := Posix
|}.

Definition empty_world : World := mkWorld (mkFS ∅ ∅) [] [] [].

Definition world_with (path raw : string) : World :=
  mkWorld (mkFS {[ path := raw ]} {[ "/out" ]}) [] [] [].

End Toy.

(** ** A second instance, with failing collaborators

    On a Windows host.  The parser rejects the text [BAD] with a
    [ValueError]; the deletion routine fails for the method [boom] and
    reports an empty id set for an empty gene id; the shell refuses to
    create [/ro] and otherwise creates the directories it is asked for. *)
Module Lab.

Definition lab_parser (fmt : Format) (f : FS) (file : string) (_ : unit)
  : result (list Gene) :=
  match files f !! file with
  | None => Raise (Exn FileNotFoundError file)
  | Some raw =>
      if String.eqb raw "BAD" then Raise (Exn ValueError "bad model")
      else Ok (map Toy.gene_of_line (read_gene_list raw))
  end.

Definition lab_row (i : string) : Row string :=
  mkRow (if String.eqb i EmptyString then [] else [i]) "1.0" "optimal".

Definition lab_deletion (m : option (list Gene)) (gl : option (list string))
    (method : string) : result (list (Row string)) :=
  if String.eqb method "boom" then Raise (Exn ValueError "boom")
  else match m with
       | None => Raise (Exn AttributeError "genes")
       | Some gs =>
           Ok (map lab_row (match gl with Some l => l | None => map gene_id gs end))
       end.

Definition lab_shell (cmd : string) (f : FS) : FS * nat :=
  match mkdir_p_args cmd with
  | Some args =>
      if bool_decide ("/ro" ∈ args) then (f, 1)
      else (mkFS (files f) (list_to_set args ∪ dirs f), 0)
  | None => (f, 2)
  end.

#[local] Instance lab : External := {|
  Model := list Gene;
  genes := λ m, m;
  Kwargs := unit;
  no_kwargs := tt;
  parser := lab_parser;
  Float := string;
  float_str := λ x, x;
  single_gene_deletion := lab_deletion;
  shell := lab_shell;
  host := Windows
|}.

End Lab.

(** ** The claims in the words of the specification

    Second definitions, written from the specification, against which the
    translated code is compared. *)

(** "The substring after the last [sep]" (all of [s] when it has none). *)
Fixpoint after_last (sep : ascii) (s : string) : string :=
  match s with
  | EmptyString => EmptyString
  | String c rest =>
      if char_in sep rest then after_last sep rest
      else if Ascii.eqb c sep then rest else s
  end.

(** "Truncated at the first [sep]" (all of [s] when it has none). *)
Fixpoint before_first (sep : ascii) (s : string) : string :=
  match s with
  | EmptyString => EmptyString
  | String c rest =>
      if Ascii.eqb c sep then EmptyString else String c (before_first sep rest)
  end.

(** "One of three known extensions xml, json, mat". *)
Definition known_ext (ext : string) : option Format :=
  if String.eqb ext "xml" then Some Sbml
  else if String.eqb ext "json" then Some Json
  else if String.eqb ext "mat" then Some Matlab
  else None.

(** "Later entries with a duplicate id overwrite earlier ones": the name
    carried by the last gene of the list whose id is [i]. *)
Fixpoint name_of_last (i : string) (gs : list Gene) : option string :=
  match gs with
  | [] => None
  | r :: rest =>
      match name_of_last i rest with
      | Some n => Some n
      | None => if String.eqb (gene_id r) i then Some (gene_name r) else None
      end
  end.

(** "One data row per deleted gene, the id normalized from its
    one-element set, the name taken from gene_info": how a written row
    [o] relates to the row [r] the deletion routine returned. *)
Definition row_joined `{E : External} (g : gmap string string)
    (r : Row Float) (o : OutRow) : Prop :=
  (∃ rest, ids r = o_ids o :: rest)
  ∧ growth r = o_growth o
  ∧ status r = o_status o
  ∧ g !! o_ids o = Some (o_name o).

(** "Tab-separated, columns ids, growth, status, name, no index column":
    the header line, and the line of a row. *)
Definition header_line `{E : External} : string :=
  ("ids" +:+ str1 TAB +:+ "growth" +:+ str1 TAB +:+ "status" +:+ str1 TAB
   +:+ "name") +:+ linesep_of host.

Definition row_line `{E : External} (o : OutRow) : string :=
  let cell := csv_cell (linesep_of host) in
  (cell (o_ids o) +:+ str1 TAB +:+ cell (float_str (o_growth o))
   +:+ str1 TAB +:+ cell (o_status o) +:+ str1 TAB +:+ cell (o_name o))
  +:+ linesep_of host.

(** "The file's lines with only literal newline characters stripped":
    lines end at ["\\n"], nothing else is touched. *)
Definition lines_newline_stripped (raw : string) : list string :=
  map (strip (str1 LF)) (keepends raw).

(** A blank (space or tab) occurs in [s]. *)
Fixpoint has_blank (s : string) : bool :=
  match s with
  | EmptyString => false
  | String c rest =>
      match sh_classify c with ShBlank => true | _ => has_blank rest end
  end.

(** [s] is made of ordinary characters and blanks only. *)
Fixpoint sh_simple (s : string) : bool :=
  match s with
  | EmptyString => true
  | String c rest =>
      match sh_classify c with
      | ShBlank | ShPlain => sh_simple rest
      | _ => false
      end
  end.

(** "The blank-separated words" of a text: tabs read as spaces, the
    text cut at every space, the empty pieces dropped. *)
Definition tab_to_space (c : ascii) : ascii :=
  if Ascii.eqb c TAB then SPACE else c.

Fixpoint tabs_to_spaces (s : string) : string :=
  match s with
  | EmptyString => EmptyString
  | String c rest => String (tab_to_space c) (tabs_to_spaces rest)
  end.

Definition blank_words (s : string) : list string :=
  filter (λ w, w ≠ EmptyString) (split SPACE (tabs_to_spaces s)).

(** The pieces of a cut text when [cur] has been read before it. *)
Definition prepend_word (cur : string) (l : list string) : list string :=
  match l with
  | [] => [cur]
  | w :: ws => (cur +:+ w) :: ws
  end.

(** The two readings of the consequence drawn for unquoted paths, as
    universal statements about the arguments [mkdir] receives. *)
Definition blank_gives_several_directories : Prop :=
  ∀ od args, has_blank od = true →
    mkdir_p_args ("mkdir -p " +:+ od) = Some args → (2 ≤ length args)%nat.

Definition special_char_changes_the_path : Prop :=
  ∀ od args, sh_simple od = false →
    mkdir_p_args ("mkdir -p " +:+ od) = Some args → args ≠ [od].

(** ** Strings *)

(** A concrete string is not in a concrete list of other strings. *)
Ltac solve_not_in :=
  let H := fresh in
  intros H;
  repeat (apply elem_of_cons in H as [H|H]; [discriminate H|]);
  by apply elem_of_nil in H.

(** Unfolding of the monad operations in a goal. *)
Ltac unfold_M :=
  unfold bind, ret, raise, lift, modify, get_fs, logger_info in *; cbn beta iota in *.


Section StringFacts.

Lemma split_nonempty sep s : split sep s ≠ [].
Proof.
  destruct s as [|c rest]; simpl; [done|].
  destruct (Ascii.eqb c sep); [done|].
  by destruct (split sep rest).
Qed.

Lemma split_no_sep sep s : char_in sep s = false → split sep s = [s].
Proof.
  induction s as [|c rest IH]; simpl; [done|].
  rewrite orb_false_iff. intros [Hc Hrest].
  rewrite Ascii.eqb_sym, Hc. by rewrite (IH Hrest).
Qed.

Lemma split_with_sep sep s :
  char_in sep s = true → ∃ x y l, split sep s = x :: y :: l.
Proof.
  induction s as [|c rest IH]; simpl; [done|].
  rewrite (Ascii.eqb_sym sep c).
  destruct (Ascii.eqb c sep) eqn:Hc; simpl.
  - intros _. destruct (split sep rest) as [|y l] eqn:Hs.
    + by destruct (split_nonempty sep rest).
    + by exists EmptyString, y, l.
  - intros Hrest. destruct (IH Hrest) as (x & y & l & ->).
    by exists (String c x), y, l.
Qed.

Lemma last_cons_cons {A} (x y : A) l d : List.last (x :: y :: l) d = List.last (y :: l) d.
Proof. done. Qed.

Lemma index_last_split sep s : index_last (split sep s) = after_last sep s.
Proof.
  unfold index_last.
  induction s as [|c rest IH]; [done|].
  cbn [split after_last].
  destruct (char_in sep rest) eqn:Hin.
  - destruct (split_with_sep _ _ Hin) as (x & y & l & Hs).
    rewrite <- IH, Hs. by destruct (Ascii.eqb c sep).
  - rewrite (split_no_sep _ _ Hin). by destruct (Ascii.eqb c sep).
Qed.

Lemma index_first_split sep s : index_first (split sep s) = before_first sep s.
Proof.
  unfold index_first.
  induction s as [|c rest IH]; [done|].
  cbn [split before_first].
  destruct (Ascii.eqb c sep); [done|].
  rewrite <- IH. by destruct (split sep rest).
Qed.

Lemma char_in_app c s t : char_in c (s +:+ t) = char_in c s || char_in c t.
Proof.
  induction s as [|d s IH]; simpl; [done|]. by rewrite IH, orb_assoc.
Qed.

Lemma after_last_app sep dir base :
  char_in sep base = false → after_last sep (dir +:+ String sep base) = base.
Proof.
  intros Hb. induction dir as [|c dir IH]; simpl.
  - by rewrite Hb, Ascii.eqb_refl.
  - rewrite char_in_app. simpl. rewrite Ascii.eqb_refl, orb_true_r. apply IH.
Qed.

Lemma before_first_app sep stem rest :
  char_in sep stem = false → before_first sep (stem +:+ String sep rest) = stem.
Proof.
  induction stem as [|c stem IH]; simpl.
  - by rewrite Ascii.eqb_refl.
  - rewrite orb_false_iff. intros [Hc Hs].
    rewrite Ascii.eqb_sym, Hc. by rewrite IH.
Qed.

Lemma app_cons c (s t : string) : String c s +:+ t = String c (s +:+ t).
Proof. reflexivity. Qed.

Lemma app_empty_l (t : string) : EmptyString +:+ t = t.
Proof. reflexivity. Qed.

Lemma string_app_assoc (a b c : string) : (a +:+ b) +:+ c = a +:+ (b +:+ c).
Proof.
  induction a as [|x a IH]; [done|]. by rewrite !app_cons, IH.
Qed.

Lemma string_app_empty_r (a : string) : a +:+ EmptyString = a.
Proof.
  induction a as [|x a IH]; [done|]. by rewrite app_cons, IH.
Qed.

End StringFacts.

Lemma funcs_dict_known ext : funcs_dict !! ext = known_ext ext.
Proof.
  unfold funcs_dict, known_ext.
  destruct (String.eqb_spec ext "xml") as [->|H1]; [done|].
  rewrite lookup_insert_ne by done.
  destruct (String.eqb_spec ext "json") as [->|H2]; [done|].
  rewrite lookup_insert_ne by done.
  destruct (String.eqb_spec ext "mat") as [->|H3]; [done|].
  by rewrite lookup_singleton_ne.
Qed.

(** ** The translated functions on small inputs *)

Example split_dots : split DOT "my.model.v2.xml" = ["my"; "model"; "v2"; "xml"].
Proof. reflexivity. Qed.

Example split_no_dot : split DOT "Makefile" = ["Makefile"].
Proof. reflexivity. Qed.

Example split_trailing_slash : split SLASH "/data/" = [EmptyString; "data"; EmptyString].
Proof. reflexivity. Qed.

Example file_ext_upper : file_ext_of "/data/Ecoli.Core.XML" = "xml".
Proof. reflexivity. Qed.

(** Without a dot the whole lowercased path is the "extension". *)
Example file_ext_no_dot : file_ext_of "/data/JSON" = "/data/json".
Proof. reflexivity. Qed.

Example out_name_no_slash : out_name_of "iJN746.mat" = "iJN746".
Proof. reflexivity. Qed.

Example strip_both_ends :
  strip (str1 LF) (String LF ("a b " +:+ String LF (str1 LF))) = "a b ".
Proof. reflexivity. Qed.

Example readlines_mixed :
  readlines ("a" +:+ String CR (String LF ("b" +:+ String CR ("c" +:+ str1 LF))) +:+ "d")
  = ["a" +:+ str1 LF; "b" +:+ str1 LF; "c" +:+ str1 LF; "d"].
Proof. reflexivity. Qed.

Example counter_statuses :
  Counter ["optimal"; "infeasible"; "optimal"] = [("optimal", 2); ("infeasible", 1)].
Proof. reflexivity. Qed.

Example csv_cell_with_tab :
  csv_cell (str1 LF) ("a" +:+ str1 TAB +:+ "b")
  = str1 DQUOTE +:+ "a" +:+ str1 TAB +:+ "b" +:+ str1 DQUOTE.
Proof. reflexivity. Qed.

Example sh_fields_two_words : sh_fields EmptyString "mkdir -p  my  dir " = Some ["mkdir"; "-p"; "my"; "dir"].
Proof. reflexivity. Qed.

(** The whole command line on a two-gene model. *)
Example main_runs :
  let model := "A=alpha" +:+ str1 LF +:+ "B=beta" +:+ str1 LF in
  let r := @main Toy.toy (mkArgs "/data/m.xml" "/out" "fba" None)
             (Toy.world_with "/data/m.xml" model) in
  r.2 = Ok tt
  ∧ log r.1 = [LogInfo "load_model_from_file" "xml";
               LogInfo "parse_gene_info_from_model" "Total Genes: 2";
               LogCounter "run_knockout" [("optimal", 1); ("infeasible", 1)]]
  ∧ parser_calls r.1 = [(Sbml, "/data/m.xml")]
  ∧ shell_calls r.1 = []
  ∧ is_Some (files (fs r.1) !! "/out/m_knock_res.txt").
Proof. vm_compute. split_and!; try reflexivity. by eexists. Qed.

(** ** The model loader *)

Section Loader.
Context `{E : External}.

Lemma file_ext_after_last file : file_ext_of file = after_last DOT (lower file).
Proof. apply index_last_split. Qed.

(** What [load_model_from_file] does once the path exists, in terms of
    the dictionary lookup and of the parser's answer. *)
Lemma load_model_from_file_run file kw w :
  path_exists (fs w) file = true →
  load_model_from_file file kw w =
    let ext := file_ext_of file in
    let w1 := add_log (LogInfo "load_model_from_file" ext) w in
    match known_ext ext with
    | None => (w1, Raise (Exn FileNotFoundError ("error " +:+ ext)))
    | Some fmt =>
        let w2 := add_parser_call (fmt, file) w1 in
        match parser fmt (fs w) file kw with
        | Ok m => (w2, Ok m)
        | Raise e =>
            if catches_KeyError e then
              (w2, Raise (Exn FileNotFoundError ("error " +:+ ext)))
            else if catches_IOError e then (w2, Raise (Exn OSError ("error " +:+ file)))
            else (w2, Raise e)
        end
    end.
Proof.
  intros Hex. unfold load_model_from_file, load_except, load_try, call_parser, getitem.
  unfold_M. rewrite Hex. cbn. rewrite funcs_dict_known.
  destruct (known_ext (file_ext_of file)) as [fmt|]; cbn; [|done].
  by destruct (parser fmt (fs w) file kw).
Qed.

(** C3: for an existing path whose lowercased text after the last dot is
    xml, json or mat, the loader calls the parser of that format, on that
    path, exactly once (the record of parser calls grows by that single
    entry), touches no file, and hands back unchanged the model the
    parser returns. *)
Theorem load_dispatches_to_matching_parser_once
    (file : string) (kw : Kwargs) (w : World) (fmt : Format) :
  path_exists (fs w) file = true →
  known_ext (after_last DOT (lower file)) = Some fmt →
  parser_calls (fst (load_model_from_file file kw w))
    = (parser_calls w ++ [(fmt, file)])%list
  ∧ fs (fst (load_model_from_file file kw w)) = fs w
  ∧ ∀ m, parser fmt (fs w) file kw = Ok m →
         snd (load_model_from_file file kw w) = Ok m.
Proof.
  intros Hex Hext. rewrite (load_model_from_file_run _ _ _ Hex).
  cbn zeta. rewrite file_ext_after_last, Hext.
  destruct (parser fmt (fs w) file kw) as [m|e] eqn:Hp.
  - by split_and!; [..|intros m' [= ->]].
  - by destruct (catches_KeyError e), (catches_IOError e).
Qed.

(** C4: for an existing path whose lowercased text after the last dot is
    none of xml, json, mat, the loader logs the extension and raises
    [FileNotFoundError("error <ext>")]; no parser is called. *)
Theorem load_unknown_extension_not_found
    (file : string) (kw : Kwargs) (w : World) :
  path_exists (fs w) file = true →
  known_ext (after_last DOT (lower file)) = None →
  load_model_from_file file kw w
    = (add_log (LogInfo "load_model_from_file" (after_last DOT (lower file))) w,
       Raise (Exn FileNotFoundError ("error " +:+ after_last DOT (lower file))))
  ∧ parser_calls (fst (load_model_from_file file kw w)) = parser_calls w.
Proof.
  intros Hex Hext. rewrite (load_model_from_file_run _ _ _ Hex).
  cbn zeta. by rewrite file_ext_after_last, Hext.
Qed.

(** C8: when the matched parser itself raises a [KeyError], the loader
    has called it (once) and reports
    [FileNotFoundError("error <ext>")], the very exception an unsupported
    extension produces: the [try] block covers the parser call as well as
    the dictionary lookup. *)
Theorem parser_KeyError_becomes_not_found
    (file : string) (kw : Kwargs) (w : World) (fmt : Format) (e : exn) :
  path_exists (fs w) file = true →
  known_ext (after_last DOT (lower file)) = Some fmt →
  parser fmt (fs w) file kw = Raise e →
  catches_KeyError e = true →
  snd (load_model_from_file file kw w)
    = Raise (Exn FileNotFoundError ("error " +:+ after_last DOT (lower file)))
  ∧ parser_calls (fst (load_model_from_file file kw w))
    = (parser_calls w ++ [(fmt, file)])%list.
Proof.
  intros Hex Hext Hp Hk. rewrite (load_model_from_file_run _ _ _ Hex).
  cbn zeta. by rewrite file_ext_after_last, Hext, Hp, Hk.
Qed.

End Loader.

(** A run of C3 on [/data/Ecoli.XML], which exists and parses. *)
Lemma load_dispatches_witness :
  let w := Toy.world_with "/data/Ecoli.XML" "b0001=thrL" in
  parser_calls (fst (@load_model_from_file Toy.toy "/data/Ecoli.XML" tt w))
    = (parser_calls w ++ [(Sbml, "/data/Ecoli.XML")])%list
  ∧ fs (fst (@load_model_from_file Toy.toy "/data/Ecoli.XML" tt w)) = fs w
  ∧ ∀ m, @parser Toy.toy Sbml (fs w) "/data/Ecoli.XML" tt = Ok m →
         snd (@load_model_from_file Toy.toy "/data/Ecoli.XML" tt w) = Ok m.
Proof.
  intros w.
  apply (@load_dispatches_to_matching_parser_once Toy.toy
           "/data/Ecoli.XML" tt w Sbml); vm_compute; reflexivity.
Defined.

(** A run of C4 on [/data/genes.txt]. *)
Lemma load_unknown_extension_witness :
  let w := Toy.world_with "/data/genes.txt" "b0001=thrL" in
  @load_model_from_file Toy.toy "/data/genes.txt" tt w
    = (add_log (LogInfo "load_model_from_file" "txt") w,
       Raise (Exn FileNotFoundError "error txt"))
  ∧ parser_calls (fst (@load_model_from_file Toy.toy "/data/genes.txt" tt w))
    = parser_calls w.
Proof.
  intros w.
  apply (@load_unknown_extension_not_found Toy.toy "/data/genes.txt" tt w);
    vm_compute; reflexivity.
Defined.

(** A run of C8: the toy JSON parser raises [KeyError] on this file. *)
Lemma parser_KeyError_witness :
  let w := Toy.world_with "/data/m.json" "KEY" in
  snd (@load_model_from_file Toy.toy "/data/m.json" tt w)
    = Raise (Exn FileNotFoundError "error json")
  ∧ parser_calls (fst (@load_model_from_file Toy.toy "/data/m.json" tt w))
    = (parser_calls w ++ [(Json, "/data/m.json")])%list.
Proof.
  intros w.
  apply (@parser_KeyError_becomes_not_found Toy.toy "/data/m.json" tt w Json
           (Exn KeyError "species")); vm_compute; reflexivity.
Defined.

(** ** The constructor *)

Section ShellWords.

Lemma has_blank_app s t : has_blank (s +:+ t) = has_blank s || has_blank t.
Proof.
  induction s as [|c s IH]; [done|].
  rewrite app_cons. simpl. by destruct (sh_classify c).
Qed.

Lemma has_blank_snoc s c :
  sh_classify c ≠ ShBlank → has_blank (s +:+ str1 c) = has_blank s.
Proof.
  intros Hc. rewrite has_blank_app. simpl.
  destruct (sh_classify c); by rewrite ?orb_false_r.
Qed.

(** Every field the shell produces is free of blanks. *)
Lemma sh_fields_no_blank cmd : ∀ cur fields,
  has_blank cur = false →
  sh_fields cur cmd = Some fields →
  Forall (λ a, has_blank a = false) fields.
Proof.
  induction cmd as [|c rest IH]; intros cur fields Hcur; simpl.
  - intros [= <-]. destruct cur; by repeat constructor.
  - destruct (sh_classify c) eqn:Hc.
    + destruct cur as [|d cur'].
      * by apply IH.
      * destruct (sh_fields EmptyString rest) as [fs'|] eqn:Hr; [|done].
        intros [= <-]. constructor; [done|]. by apply (IH EmptyString).
    + apply IH. rewrite has_blank_snoc; [done|congruence].
    + destruct cur as [|d cur']; [done|].
      apply IH. rewrite has_blank_snoc; [done|congruence].
    + done.
Qed.

Lemma sh_fields_simple cmd : ∀ cur,
  sh_simple cmd = true → is_Some (sh_fields cur cmd).
Proof.
  induction cmd as [|c rest IH]; intros cur; simpl; [by eexists|].
  destruct (sh_classify c); try done; intros Hs.
  - destruct cur; [by apply IH|].
    destruct (IH EmptyString Hs) as [fs' ->]. by eexists.
  - by apply IH.
Qed.

Lemma sh_classify_blank c :
  sh_classify c = ShBlank → tab_to_space c = SPACE.
Proof.
  unfold sh_classify, tab_to_space.
  destruct (Ascii.eqb_spec c TAB) as [->|_]; [done|].
  destruct (Ascii.eqb_spec c SPACE) as [->|_]; [done|]. cbn.
  by repeat case_match.
Qed.

Lemma sh_classify_plain c :
  sh_classify c = ShPlain → tab_to_space c = c ∧ Ascii.eqb c SPACE = false.
Proof.
  unfold sh_classify, tab_to_space.
  destruct (Ascii.eqb c TAB); [by rewrite orb_true_r|].
  by destruct (Ascii.eqb c SPACE).
Qed.

(** On a text of ordinary characters and blanks the shell's fields are
    the blank-separated words. *)
Lemma sh_fields_words s : ∀ cur,
  sh_simple s = true →
  sh_fields cur s
  = Some (filter (λ w, w ≠ EmptyString)
            (prepend_word cur (split SPACE (tabs_to_spaces s)))).
Proof.
  induction s as [|c rest IH]; intros cur; cbn [sh_simple sh_fields].
  - intros _. cbn. rewrite string_app_empty_r.
    destruct cur; by case_decide.
  - destruct (sh_classify c) eqn:Hc; try done; intros Hs.
    + cbn [tabs_to_spaces split]. rewrite (sh_classify_blank _ Hc).
      rewrite Ascii.eqb_refl. cbn [prepend_word]. rewrite string_app_empty_r.
      specialize (IH EmptyString Hs).
      assert (prepend_word EmptyString (split SPACE (tabs_to_spaces rest))
              = split SPACE (tabs_to_spaces rest)) as Hpre.
      { destruct (split SPACE (tabs_to_spaces rest)) eqn:Hsp; [|done].
        by destruct (split_nonempty SPACE (tabs_to_spaces rest)). }
      rewrite Hpre in IH. rewrite IH.
      destruct cur as [|d cur'].
      * rewrite filter_cons_False; [done|]. intros Hne. by apply Hne.
      * by rewrite filter_cons_True.
    + cbn [tabs_to_spaces split].
      destruct (sh_classify_plain _ Hc) as [-> ->].
      rewrite (IH _ Hs).
      destruct (split SPACE (tabs_to_spaces rest)) as [|w ws] eqn:Hsp.
      * by destruct (split_nonempty SPACE (tabs_to_spaces rest)).
      * cbn [prepend_word]. by rewrite string_app_assoc.
Qed.

Lemma sh_fields_blank_words s :
  sh_simple s = true → sh_fields EmptyString s = Some (blank_words s).
Proof.
  intros Hs. rewrite (sh_fields_words _ _ Hs). unfold blank_words.
  destruct (split SPACE (tabs_to_spaces s)) eqn:Hsp; [|done].
  by destruct (split_nonempty SPACE (tabs_to_spaces s)).
Qed.

(** The fixed head of the command is read as the two fields [mkdir] and
    [-p]; the rest of the line is split on its own. *)
Lemma mkdir_p_args_outdir od :
  sh_simple od = true →
  Forall (λ a, option_like a = false) (blank_words od) →
  mkdir_p_args ("mkdir -p " +:+ od) = Some (blank_words od).
Proof.
  intros Hs Hopt. unfold mkdir_p_args.
  change (sh_fields EmptyString ("mkdir -p " +:+ od))
    with (cons "mkdir" <$> (cons "-p" <$> sh_fields EmptyString od)).
  rewrite (sh_fields_blank_words _ Hs). cbn.
  assert (forallb (λ a, negb (option_like a)) (blank_words od) = true) as ->; [|done].
  induction Hopt as [|a l Ha _ IH]; [done|]. cbn. by rewrite Ha, IH.
Qed.

End ShellWords.

Section Constructor.
Context `{E : External}.

Lemma out_name_first_dot mf :
  out_name_of mf = before_first DOT (after_last SLASH mf).
Proof.
  unfold out_name_of. by rewrite index_last_split, index_first_split.
Qed.

(** The constructor, case by case. *)
Lemma Knockout_init_run mf od meth w :
  Knockout_init mf od meth w =
    let self := mkKnockout mf od meth None None ∅ (out_name_of mf)
                  (out_res_of od (out_name_of mf)) in
    if path_exists (fs w) od then (w, Ok self)
    else
      let cmd := "mkdir -p " +:+ od in
      let w' := set_fs (shell cmd (fs w)).1 (add_shell_call cmd w) in
      match (shell cmd (fs w)).2 with
      | O => (w', Ok self)
      | S _ => (w', Raise (Exn CalledProcessError cmd))
      end.
Proof.
  unfold Knockout_init, check_call. unfold_M.
  destruct (path_exists (fs w) od); cbn; [done|].
  destruct (shell ("mkdir -p " +:+ od) (fs w)) as [f' [|code]]; done.
Qed.

(** C2: for every model file, [outdir], method and world, the
    constructor produces its object exactly when [outdir] exists or the
    [mkdir] command succeeds (otherwise it raises [CalledProcessError]),
    and that object has [out_name] equal to the text after the last
    slash of [model_file] cut at its first dot, and [out_res] equal to
    [outdir/out_name_knock_res.txt].  For [/data/my.model.v2.xml] and
    [/out], whenever [/out] exists or can be made, the output path is
    [/out/my_knock_res.txt]. *)
Theorem out_path_truncates_at_first_dot :
  (∀ mf od meth w,
     let name := before_first DOT (after_last SLASH mf) in
     let self := mkKnockout mf od meth None None ∅ name
                   (od +:+ "/" +:+ name +:+ "_knock_res.txt") in
     (Knockout_init mf od meth w).2
     = if path_exists (fs w) od then Ok self
       else match (shell ("mkdir -p " +:+ od) (fs w)).2 with
            | O => Ok self
            | S _ => Raise (Exn CalledProcessError ("mkdir -p " +:+ od))
            end)
  ∧ (∀ meth w,
       path_exists (fs w) "/out" = true
       ∨ (shell "mkdir -p /out" (fs w)).2 = 0 →
       (Knockout_init "/data/my.model.v2.xml" "/out" meth w).2
       = Ok (mkKnockout "/data/my.model.v2.xml" "/out" meth None None ∅
               "my" "/out/my_knock_res.txt")).
Proof.
  assert (∀ mf od meth w,
     let name := before_first DOT (after_last SLASH mf) in
     let self := mkKnockout mf od meth None None ∅ name
                   (od +:+ "/" +:+ name +:+ "_knock_res.txt") in
     (Knockout_init mf od meth w).2
     = if path_exists (fs w) od then Ok self
       else match (shell ("mkdir -p " +:+ od) (fs w)).2 with
            | O => Ok self
            | S _ => Raise (Exn CalledProcessError ("mkdir -p " +:+ od))
            end) as Hgen.
  { intros mf od meth w. cbn zeta. rewrite Knockout_init_run. cbn zeta.
    rewrite out_name_first_dot. unfold out_res_of.
    destruct (path_exists (fs w) od); [done|].
    by destruct ((shell ("mkdir -p " +:+ od) (fs w)).2). }
  split; [exact Hgen|].
  intros meth w Hcan.
  rewrite (Hgen "/data/my.model.v2.xml" "/out" meth w).
  change ("mkdir -p " +:+ "/out") with "mkdir -p /out".
  destruct (path_exists (fs w) "/out"); [done|].
  destruct Hcan as [Hex|Hsh]; [done|]. by rewrite Hsh.
Qed.

(** C10, as the code has it: when [outdir] exists the constructor leaves
    the world as it is (no command runs); when it does not, the one
    command run is the text [mkdir -p ] followed by [outdir] as given.
    For an [outdir] made only of letters, digits, the characters
    [@%+=:,./_-] and blanks, none of whose words starts with a dash, the
    shell hands [mkdir] exactly the blank-separated words of [outdir];
    so when such an [outdir] holds a blank it is never among the paths
    [mkdir] is asked for, and none of those holds a blank. *)
Theorem mkdir_command_is_unquoted (mf od meth : string) (w : World) :
  let cmd := "mkdir -p " +:+ od in
  (path_exists (fs w) od = true → (Knockout_init mf od meth w).1 = w)
  ∧ (path_exists (fs w) od = false →
       shell_calls (Knockout_init mf od meth w).1 = (shell_calls w ++ [cmd])%list
       ∧ fs (Knockout_init mf od meth w).1 = (shell cmd (fs w)).1)
  ∧ (sh_simple od = true →
     Forall (λ a, option_like a = false) (blank_words od) →
       mkdir_p_args cmd = Some (blank_words od)
       ∧ (has_blank od = true →
            (od ∉ blank_words od)
            ∧ Forall (λ a, has_blank a = false) (blank_words od))).
Proof.
  cbn zeta. split_and!.
  - intros Hex. by rewrite Knockout_init_run, Hex.
  - intros Hex. rewrite Knockout_init_run, Hex. cbn zeta.
    by destruct ((shell ("mkdir -p " +:+ od) (fs w)).2).
  - intros Hs Hopt. split; [by apply mkdir_p_args_outdir|]. intros Hb.
    pose proof (sh_fields_no_blank od EmptyString (blank_words od) eq_refl
                  (sh_fields_blank_words _ Hs)) as Hall.
    split; [|done]. intros Hin.
    rewrite Forall_forall in Hall. specialize (Hall _ Hin). congruence.
Qed.

End Constructor.

(** A run of C2: [/out] exists, the object is produced. *)
Lemma out_path_witness :
  (@Knockout_init Toy.toy "/data/my.model.v2.xml" "/out" "fba"
     (Toy.world_with "/data/my.model.v2.xml" "b1=thrL")).2
  = Ok (mkKnockout "/data/my.model.v2.xml" "/out" "fba" None None ∅
          "my" "/out/my_knock_res.txt").
Proof.
  apply (proj2 (@out_path_truncates_at_first_dot Toy.toy)).
  left. reflexivity.
Defined.

(** C10 as stated fails: [x ] (with a trailing blank) makes one directory,
    not several, and [a#b] is created under exactly that name. *)
Lemma unquoted_outdir_counterexample :
  ¬ blank_gives_several_directories ∧ ¬ special_char_changes_the_path.
Proof.
  split.
  - intros H. specialize (H "x " ["x"] eq_refl eq_refl). simpl in H. lia.
  - intros H. by specialize (H "a#b" ["a#b"] eq_refl eq_refl).
Qed.

(** A run of the constructor on the missing directory [my dir]: the
    command is [mkdir -p my dir], which asks for [my] and for [dir]. *)
Lemma mkdir_command_witness :
  path_exists (fs Toy.empty_world) "my dir" = false
  ∧ has_blank "my dir" = true
  ∧ sh_simple "my dir" = true
  ∧ blank_words "my dir" = ["my"; "dir"]
  ∧ shell_calls (@Knockout_init Toy.toy "m.xml" "my dir" "fba" Toy.empty_world).1
      = ["mkdir -p my dir"]
  ∧ mkdir_p_args "mkdir -p my dir" = Some ["my"; "dir"]
  ∧ "my dir" ∉ ["my"; "dir"].
Proof.
  destruct (@mkdir_command_is_unquoted Toy.toy "m.xml" "my dir" "fba"
              Toy.empty_world) as (_ & Hrun & Hwords).
  assert (Forall (λ a, option_like a = false) (blank_words "my dir")) as Hopt
    by (repeat constructor).
  split_and!.
  - reflexivity.
  - reflexivity.
  - reflexivity.
  - reflexivity.
  - exact (proj1 (Hrun eq_refl)).
  - exact (proj1 (Hwords eq_refl Hopt)).
  - exact (proj1 (proj2 (Hwords eq_refl Hopt) eq_refl)).
Defined.

(** ** The gene table *)

Section GeneInfo.
Context `{E : External}.

Implicit Types (g : gmap string string) (gs : list Gene).

Lemma update_gene_info_snoc g gs r :
  update_gene_info g (gs ++ [r])%list
  = <[gene_id r := gene_name r]> (update_gene_info g gs).
Proof. unfold update_gene_info. by rewrite foldl_app. Qed.

(** The loop adds to what the dict already holds. *)
Lemma update_gene_info_union g gs :
  update_gene_info g gs = update_gene_info ∅ gs ∪ g.
Proof.
  induction gs as [|r gs IH] using rev_ind.
  - cbn. by rewrite (left_id_L ∅ (∪)).
  - by rewrite !update_gene_info_snoc, IH, insert_union_l.
Qed.

Lemma update_gene_info_dom g gs :
  dom (update_gene_info g gs) = list_to_set (gene_id <$> gs) ∪ dom g.
Proof.
  induction gs as [|r gs IH] using rev_ind.
  - cbn. set_solver.
  - rewrite update_gene_info_snoc, dom_insert_L, IH, fmap_app, list_to_set_app_L.
    cbn. set_solver.
Qed.

Lemma update_gene_info_lookup gs : ∀ g i,
  update_gene_info g gs !! i
  = match name_of_last i gs with Some n => Some n | None => g !! i end.
Proof.
  induction gs as [|r gs IH]; intros g i; [done|].
  change (update_gene_info g (r :: gs))
    with (update_gene_info (<[gene_id r := gene_name r]> g) gs).
  rewrite IH. cbn [name_of_last].
  destruct (name_of_last i gs); [done|].
  destruct (String.eqb_spec (gene_id r) i) as [->|Hne].
  - by rewrite lookup_insert_eq.
  - by rewrite lookup_insert_ne.
Qed.

Lemma update_gene_info_size gs :
  NoDup (gene_id <$> gs) → size (update_gene_info ∅ gs) = length gs.
Proof.
  intros Hnd. rewrite <- size_dom, update_gene_info_dom, dom_empty_L.
  rewrite (right_id_L ∅ (∪)), size_list_to_set by done.
  by rewrite length_fmap.
Qed.

(** [load_data] once the loader has returned a model. *)
Lemma load_data_run self w w1 (m : Model) :
  load_model_from_file (model_file self) no_kwargs w = (w1, Ok m) →
  load_data self w =
    let g := update_gene_info (gene_info self) (genes m) in
    (add_log (LogInfo "parse_gene_info_from_model"
                ("Total Genes: " +:+ pretty (size g))) w1,
     Ok (set_gene_info (set_model_obj self m) g)).
Proof.
  intros Hl. unfold load_data, parse_gene_info_from_model. unfold_M.
  by rewrite Hl.
Qed.

(** C5: on an object as the constructor made it (with or without a gene
    list set), once the loader has returned a model, [load_data] leaves a
    [gene_info] whose keys are exactly the gene ids of the model, each id
    mapped to the name of the last gene carrying it, and logs
    [Total Genes: n] with [n] the size of that map; with distinct ids
    [n] is the number of genes, so three genes log [Total Genes: 3]. *)
Theorem gene_info_matches_model
    (mf od meth : string) (gl : option (list string))
    (w0 w0' w w1 : World) (self0 : Knockout) (m : Model) :
  Knockout_init mf od meth w0 = (w0', Ok self0) →
  load_model_from_file mf no_kwargs w = (w1, Ok m) →
  let self := match gl with
              | None => self0
              | Some l => set_gene_list self0 l
              end in
  ∃ self',
    load_data self w
      = (add_log (LogInfo "parse_gene_info_from_model"
                    ("Total Genes: " +:+ pretty (size (gene_info self')))) w1,
         Ok self')
    ∧ dom (gene_info self') = list_to_set (gene_id <$> genes m)
    ∧ (∀ i, gene_info self' !! i = name_of_last i (genes m))
    ∧ (NoDup (gene_id <$> genes m) →
         size (gene_info self') = length (genes m))
    ∧ (NoDup (gene_id <$> genes m) → length (genes m) = 3 →
         log (load_data self w).1
         = (log w1 ++ [LogInfo "parse_gene_info_from_model" "Total Genes: 3"])%list).
Proof.
  intros Hinit Hload self.
  assert (gene_info self = ∅ ∧ model_file self = mf) as [Hg Hmf].
  { rewrite Knockout_init_run in Hinit. cbn zeta in Hinit. subst self.
    destruct (path_exists (fs w0) od).
    - injection Hinit as _ <-. by destruct gl.
    - destruct ((shell ("mkdir -p " +:+ od) (fs w0)).2); [|done].
      injection Hinit as _ <-. by destruct gl. }
  rewrite <- Hmf in Hload.
  exists (set_gene_info (set_model_obj self m)
            (update_gene_info (gene_info self) (genes m))).
  rewrite (load_data_run _ _ _ _ Hload). cbn zeta.
  split; [reflexivity|]. cbn [gene_info set_gene_info]. rewrite Hg.
  split_and!.
  - rewrite update_gene_info_dom, dom_empty_L. by rewrite (right_id_L ∅ (∪)).
  - intros i. rewrite update_gene_info_lookup, lookup_empty.
    by destruct (name_of_last i (genes m)).
  - apply update_gene_info_size.
  - intros Hnd Hlen. cbn [fst log add_log].
    by rewrite (update_gene_info_size _ Hnd), Hlen.
Qed.

(** C9: [parse_gene_info_from_model] starts from the dict it finds.
    After a first load of [m1] on a fresh object and a second load, on
    the same object, that returns [m2], [gene_info] is the table of [m2]
    laid over the table of [m1]: its keys are the ids of both models, an
    id that only [m1] has keeps its entry, and the number logged is the
    size of that union, which exceeds the size of the table of [m2] as
    soon as [m1] has an id of its own. *)
Theorem gene_info_accumulates_across_loads
    (self self1 : Knockout) (w w1 w' w2 : World) (m1 m2 : Model) :
  gene_info self = ∅ →
  load_model_from_file (model_file self) no_kwargs w = (w1, Ok m1) →
  (load_data self w).2 = Ok self1 →
  load_model_from_file (model_file self1) no_kwargs w' = (w2, Ok m2) →
  let t1 := update_gene_info ∅ (genes m1) in
  let t2 := update_gene_info ∅ (genes m2) in
  ∃ self2,
    load_data self1 w'
      = (add_log (LogInfo "parse_gene_info_from_model"
                    ("Total Genes: " +:+ pretty (size (t2 ∪ t1)))) w2,
         Ok self2)
    ∧ gene_info self2 = t2 ∪ t1
    ∧ dom (gene_info self2)
      = list_to_set (gene_id <$> genes m1) ∪ list_to_set (gene_id <$> genes m2)
    ∧ (∀ i, i ∈ gene_id <$> genes m1 → i ∉ gene_id <$> genes m2 →
         is_Some (gene_info self2 !! i)
         ∧ gene_info self2 !! i = gene_info self1 !! i)
    ∧ ((∃ i, i ∈ gene_id <$> genes m1 ∧ i ∉ gene_id <$> genes m2) →
         size t2 < size (gene_info self2)).
Proof.
  intros Hg Hl1 Hs1 Hl2 t1 t2.
  rewrite (load_data_run _ _ _ _ Hl1) in Hs1. cbn zeta in Hs1.
  injection Hs1 as <-.
  exists (set_gene_info
            (set_model_obj
               (set_gene_info (set_model_obj self m1)
                  (update_gene_info (gene_info self) (genes m1))) m2)
            (t2 ∪ t1)).
  rewrite (load_data_run _ _ _ _ Hl2). cbn zeta.
  cbn [gene_info set_gene_info set_model_obj model_file].
  rewrite Hg. fold t1.
  rewrite (update_gene_info_union t1). fold t2.
  assert (dom t1 = list_to_set (gene_id <$> genes m1)) as Hd1.
  { unfold t1. rewrite update_gene_info_dom. set_solver. }
  assert (dom t2 = list_to_set (gene_id <$> genes m2)) as Hd2.
  { unfold t2. rewrite update_gene_info_dom. set_solver. }
  split_and!; try reflexivity.
  - rewrite dom_union_L, Hd1, Hd2. set_solver.
  - intros i Hi1 Hi2.
    assert (t2 !! i = None) as Hn.
    { apply not_elem_of_dom. rewrite Hd2. set_solver. }
    rewrite lookup_union_r by done. split; [|done].
    apply elem_of_dom. rewrite Hd1. set_solver.
  - intros (i & Hi1 & Hi2).
    rewrite <- !size_dom. apply subset_size.
    rewrite dom_union_L, Hd1, Hd2.
    apply strict_spec_alt. split; [set_solver|].
    intros Heq. apply Hi2.
    assert (i ∈ (list_to_set (gene_id <$> genes m2) : gset string)) as Hin
      by (rewrite Heq; set_solver).
    set_solver.
Qed.

End GeneInfo.

(** A run of C5: a model file with three genes. *)
Lemma gene_info_matches_model_witness :
  let raw := "b1=thrL" +:+ str1 LF +:+ "b2=thrA" +:+ str1 LF +:+ "b3=thrB" in
  let w := Toy.world_with "/data/m.json" raw in
  ∃ self',
    @load_data Toy.toy
      (mkKnockout "/data/m.json" "/out" "fba" None None ∅ "m" "/out/m_knock_res.txt") w
      = (add_log (LogInfo "parse_gene_info_from_model"
                    ("Total Genes: " +:+ pretty (size (gene_info self'))))
           (add_parser_call (Json, "/data/m.json")
              (add_log (LogInfo "load_model_from_file" "json") w)),
         Ok self')
    ∧ dom (gene_info self') = list_to_set ["b1"; "b2"; "b3"]
    ∧ size (gene_info self') = 3.
Proof.
  intros raw w.
  destruct (@gene_info_matches_model Toy.toy "/data/m.json" "/out" "fba" None
              w w w
              (add_parser_call (Json, "/data/m.json")
                 (add_log (LogInfo "load_model_from_file" "json") w))
              (mkKnockout "/data/m.json" "/out" "fba" None None ∅ "m"
                 "/out/m_knock_res.txt")
              [mkGene "b1" "thrL"; mkGene "b2" "thrA"; mkGene "b3" "thrB"]
              eq_refl eq_refl) as (self' & Hrun & Hdom & _ & Hsize & _).
  exists self'. split_and!; [exact Hrun|exact Hdom|].
  apply Hsize. cbn. repeat (apply NoDup_cons_2; [solve_not_in|]). apply NoDup_nil_2.
Defined.

(** ** Running the deletion and writing the table *)

Section Run.
Context `{E : External}.

Lemma apply_series_first_of_set (table : list (Row Float)) : ∀ idcol,
  apply_series first_of_set (ids <$> table) = Ok idcol →
  Forall2 (λ r i, ∃ rest, ids r = i :: rest) table idcol.
Proof.
  induction table as [|r table IH]; intros idcol; cbn.
  - intros [= <-]. constructor.
  - destruct (ids r) as [|i rest] eqn:Hr; cbn; [done|].
    destruct (apply_series first_of_set (ids <$> table)) as [ys|] eqn:Hs; [|done].
    intros [= <-]. constructor; [by exists rest|by apply IH].
Qed.

Lemma apply_series_getitem_all (g : gmap string string) idcol :
  Forall (λ i, is_Some (g !! i)) idcol →
  ∃ namecol, apply_series (getitem g) idcol = Ok namecol
             ∧ Forall2 (λ i n, g !! i = Some n) idcol namecol.
Proof.
  induction 1 as [|i idcol [n Hn] _ (namecol & Hs & Hall)].
  - exists []. by split; [|constructor].
  - exists (n :: namecol). cbn. unfold getitem at 1. rewrite Hn, Hs.
    by split; [|constructor].
Qed.

(** The first id that [gene_info] lacks ends the column assignment. *)
Lemma apply_series_getitem_missing (g : gmap string string) idcol i :
  i ∈ idcol → g !! i = None →
  ∃ k, apply_series (getitem g) idcol = Raise (Exn KeyError k)
       ∧ k ∈ idcol ∧ g !! k = None.
Proof.
  intros Hin Hi. induction idcol as [|j idcol IH]; [by apply elem_of_nil in Hin|].
  cbn. unfold getitem at 1. destruct (g !! j) as [n|] eqn:Hj.
  - assert (i ∈ idcol) as Hin'.
    { apply elem_of_cons in Hin as [->|?]; [congruence|done]. }
    destruct (IH Hin') as (k & -> & Hk & Hn).
    exists k. split_and!; [done| |done]. by apply elem_of_cons; right.
  - exists j. split_and!; [done| |done]. by apply elem_of_cons; left.
Qed.

Lemma zip_rows_joined (g : gmap string string) (table : list (Row Float)) :
  ∀ idcol namecol,
  Forall2 (λ r i, ∃ rest, ids r = i :: rest) table idcol →
  Forall2 (λ i n, g !! i = Some n) idcol namecol →
  Forall2 (row_joined g) table (zip_rows table idcol namecol).
Proof.
  intros idcol namecol Hids. revert namecol.
  induction Hids as [|r i table idcol Hr _ IH]; intros namecol Hnames.
  - inversion Hnames. constructor.
  - inversion Hnames as [|? n ? namecol' Hn Hrest]; subst.
    constructor; [|by apply IH]. by repeat split.
Qed.

Lemma csv_header_line :
  csv_line (linesep_of host) ["ids"; "growth"; "status"; "name"] = header_line.
Proof. unfold header_line. by destruct host. Qed.

Lemma to_csv_text_lines (rows : list OutRow) :
  to_csv_text rows = header_line +:+ concat_str (row_line <$> rows).
Proof. unfold to_csv_text. cbn zeta. by rewrite csv_header_line. Qed.

(** A cell without tab, quote or line-end characters is written as is. *)
Lemma csv_cell_plain lt s : has_special lt s = false → csv_cell lt s = s.
Proof. unfold csv_cell. by intros ->. Qed.

(** C1: when the deletion routine has returned its table, the ids have
    been taken out of their sets, and one of them is not a key of
    [gene_info], [run_knockout] raises [KeyError] on the first such id
    and leaves the world exactly as it found it: nothing is logged and
    no file is written or changed, at [out_res] or elsewhere. *)
Theorem run_knockout_missing_id_writes_nothing
    (self : Knockout) (w : World) (table : list (Row Float))
    (idcol : list string) (i : string) :
  single_gene_deletion (model_obj self) (gene_list self) (method self) = Ok table →
  apply_series first_of_set (ids <$> table) = Ok idcol →
  i ∈ idcol →
  gene_info self !! i = None →
  ∃ k, run_knockout self w = (w, Raise (Exn KeyError k))
       ∧ k ∈ idcol ∧ gene_info self !! k = None
       ∧ files (fs (run_knockout self w).1) !! out_res self
         = files (fs w) !! out_res self.
Proof.
  intros Hsgd Hids Hin Hnone.
  destruct (apply_series_getitem_missing _ _ _ Hin Hnone) as (k & Hk & Hkin & Hkn).
  exists k. unfold run_knockout. unfold_M. rewrite Hsgd.
  change (map ids table) with (ids <$> table).
  by rewrite Hids, Hk.
Qed.

(** [run_knockout] once the three columns are there: the histogram is
    logged, then the file is written if its directory exists. *)
Lemma run_knockout_ok self w table idcol namecol :
  single_gene_deletion (model_obj self) (gene_list self) (method self) = Ok table →
  apply_series first_of_set (ids <$> table) = Ok idcol →
  apply_series (getitem (gene_info self)) idcol = Ok namecol →
  is_dir (fs w) (parent_dir (out_res self)) = true →
  is_dir (fs w) (out_res self) = false →
  run_knockout self w
  = (set_fs (mkFS (<[out_res self := to_csv_text (zip_rows table idcol namecol)]>
                     (files (fs w))) (dirs (fs w)))
       (add_log (LogCounter "run_knockout" (Counter (status <$> table))) w),
     Ok tt).
Proof.
  intros Hsgd Hids Hnames Hdir Hfile. unfold run_knockout, write_file. unfold_M.
  rewrite Hsgd. change (map ids table) with (ids <$> table).
  rewrite Hids, Hnames. cbn. by rewrite Hdir, Hfile.
Qed.

Lemma run_knockout_no_directory self w table idcol namecol :
  single_gene_deletion (model_obj self) (gene_list self) (method self) = Ok table →
  apply_series first_of_set (ids <$> table) = Ok idcol →
  apply_series (getitem (gene_info self)) idcol = Ok namecol →
  is_dir (fs w) (parent_dir (out_res self)) = false →
  run_knockout self w
  = (add_log (LogCounter "run_knockout" (Counter (status <$> table))) w,
     Raise (Exn OSError (parent_dir (out_res self)))).
Proof.
  intros Hsgd Hids Hnames Hdir. unfold run_knockout, write_file. unfold_M.
  rewrite Hsgd. change (map ids table) with (ids <$> table).
  rewrite Hids, Hnames. cbn. by rewrite Hdir.
Qed.

(** C6, as the code has it: when every id of the returned table is a key
    of [gene_info] and the directory of [out_res] exists (and [out_res]
    is not itself a directory), [run_knockout] succeeds and replaces
    whatever [out_res] held by the header line [ids growth status name]
    followed by one line per returned row, in the order of the table;
    each line carries the id taken out of its set, the growth, the
    status and the name found in [gene_info], tab-separated, with no
    index column, and a cell that holds no tab, quote or line-end
    character is written as it is.  On genes A (alpha) and B (beta)
    with growths 0.5 and 0.0 and statuses optimal and infeasible, the
    lines after the header are those of the example.  When the
    directory of [out_res] does not exist, [to_csv] raises [OSError]
    and the file system is left as it was. *)
Theorem run_knockout_writes_table :
  (∀ (self : Knockout) (w : World) (table : list (Row Float)) (idcol : list string),
     single_gene_deletion (model_obj self) (gene_list self) (method self) = Ok table →
     apply_series first_of_set (ids <$> table) = Ok idcol →
     Forall (λ i, is_Some (gene_info self !! i)) idcol →
     is_dir (fs w) (parent_dir (out_res self)) = true →
     is_dir (fs w) (out_res self) = false →
     ∃ rows,
       (run_knockout self w).2 = Ok tt
       ∧ files (fs (run_knockout self w).1)
         = <[out_res self := header_line +:+ concat_str (row_line <$> rows)]>
             (files (fs w))
       ∧ Forall2 (row_joined (gene_info self)) table rows)
  ∧ (∀ s, has_special (linesep_of host) s = false →
          csv_cell (linesep_of host) s = s)
  ∧ (∀ (self : Knockout) (w : World) (g1 g2 : Float),
       gene_info self = {[ "A" := "alpha"; "B" := "beta" ]} →
       single_gene_deletion (model_obj self) (gene_list self) (method self)
         = Ok [mkRow ["A"] g1 "optimal"; mkRow ["B"] g2 "infeasible"] →
       float_str g1 = "0.5" → float_str g2 = "0.0" →
       is_dir (fs w) (parent_dir (out_res self)) = true →
       is_dir (fs w) (out_res self) = false →
       let tab := str1 TAB in
       let nl := linesep_of host in
       files (fs (run_knockout self w).1) !! out_res self
       = Some (("ids" +:+ tab +:+ "growth" +:+ tab +:+ "status" +:+ tab +:+ "name")
               +:+ nl
               +:+ ("A" +:+ tab +:+ "0.5" +:+ tab +:+ "optimal" +:+ tab +:+ "alpha")
               +:+ nl
               +:+ ("B" +:+ tab +:+ "0.0" +:+ tab +:+ "infeasible" +:+ tab +:+ "beta")
               +:+ nl))
  ∧ (∀ (self : Knockout) (w : World) (table : list (Row Float)) (idcol : list string),
       single_gene_deletion (model_obj self) (gene_list self) (method self) = Ok table →
       apply_series first_of_set (ids <$> table) = Ok idcol →
       Forall (λ i, is_Some (gene_info self !! i)) idcol →
       is_dir (fs w) (parent_dir (out_res self)) = false →
       (run_knockout self w).2 = Raise (Exn OSError (parent_dir (out_res self)))
       ∧ fs (run_knockout self w).1 = fs w).
Proof.
  split_and!.
  - intros self w table idcol Hsgd Hids Hall Hdir Hfile.
    destruct (apply_series_getitem_all _ _ Hall) as (namecol & Hnames & Hjoin).
    exists (zip_rows table idcol namecol).
    rewrite (run_knockout_ok _ _ _ _ _ Hsgd Hids Hnames Hdir Hfile). cbn.
    rewrite to_csv_text_lines. split_and!; [done|done|].
    apply zip_rows_joined; [by apply apply_series_first_of_set|done].
  - intros s. apply csv_cell_plain.
  - intros self w g1 g2 Hg Hsgd Hf1 Hf2 Hdir Hfile tab nl.
    assert (getitem (gene_info self) "A" = Ok "alpha") as HA
      by (rewrite Hg; reflexivity).
    assert (getitem (gene_info self) "B" = Ok "beta") as HB
      by (rewrite Hg; reflexivity).
    rewrite (run_knockout_ok self w _ ["A"; "B"] ["alpha"; "beta"] Hsgd eq_refl);
      [|by cbn; rewrite HA, HB|done|done].
    cbn [fst snd fs files set_fs add_log]. rewrite lookup_insert_eq.
    f_equal. unfold to_csv_text, zip_rows, out_cells, csv_line. cbn.
    rewrite Hf1, Hf2. subst tab nl. by destruct host.
  - intros self w table idcol Hsgd Hids Hall Hdir.
    destruct (apply_series_getitem_all _ _ Hall) as (namecol & Hnames & _).
    by rewrite (run_knockout_no_directory _ _ _ _ _ Hsgd Hids Hnames Hdir).
Qed.

End Run.

(** A second load on the same object, after the model file has been
    replaced: [b1], which only the first model has, is still there, and
    the count logged is 3 while the second model has 2 genes. *)
Lemma gene_info_accumulates_witness :
  let self := mkKnockout "/data/m.json" "/out" "fba" None None ∅ "m"
                "/out/m_knock_res.txt" in
  let w := Toy.world_with "/data/m.json" ("b1=thrL" +:+ str1 LF +:+ "b2=thrA") in
  let w' := Toy.world_with "/data/m.json" ("b2=thrA" +:+ str1 LF +:+ "b3=thrB") in
  ∃ self1 self2,
    (@load_data Toy.toy self w).2 = Ok self1
    ∧ (@load_data Toy.toy self1 w').2 = Ok self2
    ∧ log (@load_data Toy.toy self1 w').1
      = [LogInfo "load_model_from_file" "json";
         LogInfo "parse_gene_info_from_model" "Total Genes: 3"]
    ∧ gene_info self2 !! "b1" = Some "thrL".
Proof.
  intros self w w'.
  pose (m1 := [mkGene "b1" "thrL"; mkGene "b2" "thrA"]).
  pose (m2 := [mkGene "b2" "thrA"; mkGene "b3" "thrB"]).
  pose (self1 := set_gene_info (@set_model_obj Toy.toy self m1)
                   (@update_gene_info ∅ m1)).
  destruct (@gene_info_accumulates_across_loads Toy.toy self self1 w
              (add_parser_call (Json, "/data/m.json")
                 (add_log (LogInfo "load_model_from_file" "json") w))
              w'
              (add_parser_call (Json, "/data/m.json")
                 (add_log (LogInfo "load_model_from_file" "json") w'))
              m1 m2 eq_refl eq_refl eq_refl eq_refl)
    as (self2 & Hrun & Hgi & _ & Hkeep & _).
  exists self1, self2. split_and!.
  - reflexivity.
  - by rewrite Hrun.
  - rewrite Hrun. reflexivity.
  - destruct (Hkeep "b1") as [_ ->];
      [apply list_elem_of_here|cbn; solve_not_in|reflexivity].
Defined.

(** A run of C1: the gene list asks for Z, which the model does not have. *)
Lemma run_knockout_missing_id_witness :
  let self := @mkKnockout Toy.toy "/data/m.xml" "/out" "fba" (Some ["A"; "Z"])
                (Some [mkGene "A" "alpha"]) {[ "A" := "alpha" ]} "m"
                "/out/m_knock_res.txt" in
  let w := Toy.world_with "/out/m_knock_res.txt" "kept" in
  ∃ k, @run_knockout Toy.toy self w = (w, Raise (Exn KeyError k))
       ∧ k ∈ ["A"; "Z"] ∧ gene_info self !! k = None
       ∧ files (fs (@run_knockout Toy.toy self w).1) !! out_res self
         = files (fs w) !! out_res self.
Proof.
  intros self w.
  apply (@run_knockout_missing_id_writes_nothing Toy.toy self w
           [Toy.toy_row "A"; Toy.toy_row "Z"] ["A"; "Z"] "Z").
  - reflexivity.
  - reflexivity.
  - rewrite !elem_of_cons. auto.
  - reflexivity.
Defined.

(** A run of C6 on the genes A and B of the example; [/out] is there
    and the result file of an earlier run is replaced. *)
Lemma run_knockout_writes_table_witness :
  let self := @mkKnockout Toy.toy "/data/m.xml" "/out" "fba" None
                (Some [mkGene "A" "alpha"; mkGene "B" "beta"])
                {[ "A" := "alpha"; "B" := "beta" ]} "m" "/out/m_knock_res.txt" in
  let w := Toy.world_with "/out/m_knock_res.txt" "old" in
  let tab := str1 TAB in
  let nl := str1 LF in
  (@run_knockout Toy.toy self w).2 = Ok tt
  ∧ files (fs (@run_knockout Toy.toy self w).1) !! "/out/m_knock_res.txt"
    = Some (("ids" +:+ tab +:+ "growth" +:+ tab +:+ "status" +:+ tab +:+ "name")
            +:+ nl
            +:+ ("A" +:+ tab +:+ "0.5" +:+ tab +:+ "optimal" +:+ tab +:+ "alpha")
            +:+ nl
            +:+ ("B" +:+ tab +:+ "0.0" +:+ tab +:+ "infeasible" +:+ tab +:+ "beta")
            +:+ nl).
Proof.
  intros self w tab nl.
  destruct (@run_knockout_writes_table Toy.toy) as (Hgen & _ & Hex & _).
  split.
  - destruct (Hgen self w [Toy.toy_row "A"; Toy.toy_row "B"] ["A"; "B"]
                eq_refl eq_refl) as (rows & Hok & _);
      [|reflexivity|reflexivity|exact Hok].
    repeat constructor; by eexists.
  - exact (Hex self w "0.5" "0.0" eq_refl eq_refl eq_refl eq_refl eq_refl eq_refl).
Defined.

(** C6 as stated fails when the directory of [out_res] is not there:
    with [outdir] given as [new dir] the shell has made [new] and [dir],
    every id of the table is a key of [gene_info], and yet
    [run_knockout] raises [OSError] and no file is written. *)
Lemma run_knockout_missing_directory_counterexample :
  let self := @mkKnockout Lab.lab "/data/m.xml" "new dir" "fba" None
                (Some [mkGene "A" "alpha"]) {[ "A" := "alpha" ]} "m"
                "new dir/m_knock_res.txt" in
  let w := (@Knockout_init Lab.lab "/data/m.xml" "new dir" "fba"
              (mkWorld (mkFS {[ "/data/m.xml" := "A=alpha" ]} ∅) [] [] [])).1 in
  dirs (fs w) = {[ "new"; "dir" ]}
  ∧ @single_gene_deletion Lab.lab (model_obj self) (gene_list self) (method self)
    = Ok [mkRow ["A"] "1.0" "optimal"]
  ∧ is_Some (gene_info self !! "A")
  ∧ (@run_knockout Lab.lab self w).2 = Raise (Exn OSError "new dir")
  ∧ files (fs (@run_knockout Lab.lab self w).1) !! out_res self = None.
Proof. vm_compute. split_and!; try reflexivity. by eexists. Qed.

(** ** The gene list read by the command line *)

Section GeneList.

Lemma eqb_LF_sym c : Ascii.eqb LF c = Ascii.eqb c LF.
Proof. apply Ascii.eqb_sym. Qed.

Lemma universal_newlines_no_CR raw : char_in CR (universal_newlines raw) = false.
Proof.
  induction raw as [|c rest IH]; [done|].
  cbn [universal_newlines].
  destruct (Ascii.eqb c CR) eqn:Hc.
  - destruct rest as [|d r]; [done|].
    destruct (Ascii.eqb d LF); [exact IH|].
    cbn [char_in]. by rewrite IH.
  - cbn [char_in]. by rewrite Ascii.eqb_sym, Hc, IH.
Qed.

Lemma universal_newlines_id raw :
  char_in CR raw = false → universal_newlines raw = raw.
Proof.
  induction raw as [|c rest IH]; [done|].
  cbn [char_in universal_newlines]. rewrite orb_false_iff. intros [Hc Hrest].
  rewrite Ascii.eqb_sym, Hc. by rewrite (IH Hrest).
Qed.

Lemma concat_keepends text : concat_str (keepends text) = text.
Proof.
  induction text as [|c rest IH]; [done|].
  cbn [keepends]. destruct (Ascii.eqb_spec c LF) as [->|Hne].
  - cbn [concat_str]. by rewrite IH.
  - destruct (keepends rest) as [|x xs].
    + cbn in IH. by rewrite <- IH.
    + cbn [concat_str] in *. by rewrite app_cons, IH.
Qed.

Lemma char_in_concat c ls x :
  x ∈ ls → char_in c x = true → char_in c (concat_str ls) = true.
Proof.
  induction ls as [|y ls IH]; intros Hin Hx; [by apply elem_of_nil in Hin|].
  cbn [concat_str]. rewrite char_in_app.
  apply elem_of_cons in Hin as [->|Hin]; [by rewrite Hx|].
  by rewrite (IH Hin Hx), orb_true_r.
Qed.

(** A line handed out by [readlines] is a body free of line feeds,
    followed by at most one line feed. *)
Lemma keepends_shape text :
  Forall (λ x, ∃ body, char_in LF body = false
                       ∧ (x = body +:+ str1 LF ∨ x = body))
         (keepends text).
Proof.
  induction text as [|c rest IH]; [constructor|].
  cbn [keepends]. destruct (Ascii.eqb c LF) eqn:Hc.
  - constructor; [|done]. exists EmptyString. split; [done|by left].
  - destruct (keepends rest) as [|x xs].
    + constructor; [|done]. exists (str1 c). split; [|by right].
      cbn. by rewrite eqb_LF_sym, Hc.
    + inversion IH as [|? ? (body & Hb & Hx) Hxs]; subst.
      constructor; [|done]. exists (String c body). split.
      * cbn. by rewrite eqb_LF_sym, Hc, Hb.
      * destruct Hx as [->| ->]; [by left|by right].
Qed.

Lemma keepends_line body rest :
  char_in LF body = false →
  keepends (body +:+ String LF rest) = (body +:+ str1 LF) :: keepends rest.
Proof.
  induction body as [|c body IH]; [done|].
  cbn [char_in]. rewrite orb_false_iff, eqb_LF_sym. intros [Hc Hb].
  rewrite !app_cons. cbn [keepends]. by rewrite Hc, (IH Hb).
Qed.

Lemma rstrip_keeps body :
  char_in LF body = false → rstrip (str1 LF) body = body.
Proof.
  induction body as [|c body IH]; [done|].
  cbn [char_in]. rewrite orb_false_iff, eqb_LF_sym. intros [Hc Hb].
  cbn [rstrip]. rewrite (IH Hb). destruct body; [|done].
  cbn. by rewrite Hc.
Qed.

Lemma rstrip_line_end body : rstrip (str1 LF) (body +:+ str1 LF) = rstrip (str1 LF) body.
Proof.
  induction body as [|c body IH]; [done|].
  rewrite app_cons. cbn [rstrip]. by rewrite IH.
Qed.

Lemma lstrip_head c s :
  Ascii.eqb c LF = false → lstrip (str1 LF) (String c s) = String c s.
Proof. intros Hc. cbn. by rewrite Hc. Qed.

Lemma lstrip_keeps body :
  char_in LF body = false → lstrip (str1 LF) body = body.
Proof.
  destruct body as [|c body]; [done|].
  cbn [char_in]. rewrite orb_false_iff, eqb_LF_sym. intros [Hc _].
  by apply lstrip_head.
Qed.

(** Stripping gives back the body, with or without the line end. *)
Lemma strip_line body :
  char_in LF body = false →
  strip (str1 LF) (body +:+ str1 LF) = body ∧ strip (str1 LF) body = body.
Proof.
  intros Hb. unfold strip. split.
  - destruct body as [|c body]; [done|].
    assert (Ascii.eqb c LF = false) as Hc.
    { cbn [char_in] in Hb. apply orb_false_iff in Hb as [Hc _].
      by rewrite <- eqb_LF_sym. }
    rewrite app_cons, (lstrip_head _ _ Hc), <- app_cons.
    by rewrite rstrip_line_end, rstrip_keeps.
  - by rewrite lstrip_keeps, rstrip_keeps.
Qed.

Lemma read_lines_back ls :
  Forall (λ l, char_in LF l = false) ls →
  lines_newline_stripped (concat_str ((λ l, l +:+ str1 LF) <$> ls)) = ls.
Proof.
  unfold lines_newline_stripped.
  induction 1 as [|l ls Hl _ IH]; [done|].
  cbn [fmap list_fmap concat_str]. rewrite string_app_assoc.
  change (str1 LF +:+ ?t) with (String LF t).
  rewrite (keepends_line _ _ Hl). cbn [map].
  by rewrite (proj1 (strip_line _ Hl)), IH.
Qed.

Lemma concat_lines_no_CR ls :
  Forall (λ l, char_in CR l = false) ls →
  char_in CR (concat_str ((λ l, l +:+ str1 LF) <$> ls)) = false.
Proof.
  induction 1 as [|l ls Hl _ IH]; [done|].
  cbn [fmap list_fmap concat_str]. by rewrite !char_in_app, Hl, IH.
Qed.

End GeneList.

Section CommandLine.
Context `{E : External}.

(** C7, as the code has it: the ids handed to [set_gene_list] are the
    lines of the file as the text-mode reader delivers them, that is
    after every carriage return + line feed and every lone carriage
    return has become a line feed, each with its line feeds stripped,
    in order and none dropped.  On a file without carriage returns these
    are the file's lines with only the newline characters removed; lines
    written without carriage returns and line feeds come back exactly
    (blanks included, empty lines included); and no id ever holds a
    carriage return or a line feed. *)
Theorem gene_list_is_lines_after_newline_translation
    (runner : Knockout) (path raw : string) (w : World) :
  files (fs w) !! path = Some raw →
  main_gene_list (Some path) runner w
    = (w, Ok (set_gene_list runner (read_gene_list raw)))
  ∧ read_gene_list raw = lines_newline_stripped (universal_newlines raw)
  ∧ (char_in CR raw = false → read_gene_list raw = lines_newline_stripped raw)
  ∧ (∀ ls, Forall (λ l, char_in LF l = false ∧ char_in CR l = false) ls →
           raw = concat_str ((λ l, l +:+ str1 LF) <$> ls) →
           read_gene_list raw = ls)
  ∧ (∀ l, l ∈ read_gene_list raw → char_in CR l = false ∧ char_in LF l = false).
Proof.
  intros Hfile. split_and!.
  - unfold main_gene_list, open_read. unfold_M. by rewrite Hfile.
  - reflexivity.
  - intros Hcr. unfold read_gene_list, readlines.
    by rewrite (universal_newlines_id _ Hcr).
  - intros ls Hls ->. unfold read_gene_list, readlines.
    rewrite universal_newlines_id.
    + apply read_lines_back. eapply Forall_impl; [exact Hls|]. by intros l [? _].
    + apply concat_lines_no_CR. eapply Forall_impl; [exact Hls|]. by intros l [_ ?].
  - intros l Hin. unfold read_gene_list, readlines in Hin.
    change (map ?f ?l) with (f <$> l) in Hin.
    apply list_elem_of_fmap in Hin as (x & -> & Hx).
    pose proof (keepends_shape (universal_newlines raw)) as Hshape.
    rewrite Forall_forall in Hshape.
    destruct (Hshape x Hx) as (body & Hb & Hxb).
    assert (strip (str1 LF) x = body) as ->.
    { destruct Hxb as [-> | ->]; by apply strip_line. }
    split; [|done].
    destruct (char_in CR body) eqn:Hcr; [|done].
    assert (char_in CR x = true) as Hcx.
    { destruct Hxb as [-> | ->]; [|done]. by rewrite char_in_app, Hcr. }
    pose proof (char_in_concat CR _ _ Hx Hcx) as Hall.
    rewrite concat_keepends, universal_newlines_no_CR in Hall. done.
Qed.

End CommandLine.

(** C7 as stated fails on a file with Windows line ends: the carriage
    returns do not reach the gene ids. *)
Lemma gene_list_crlf_counterexample :
  let crlf := String CR (str1 LF) in
  let raw := "PP_1614" +:+ crlf +:+ "PP_1167" +:+ crlf in
  let runner := @mkKnockout Toy.toy "/data/m.xml" "/out" "fba" None None ∅ "m"
                  "/out/m_knock_res.txt" in
  (@main_gene_list Toy.toy (Some "/data/genes.txt") runner
     (Toy.world_with "/data/genes.txt" raw)).2
    = Ok (set_gene_list runner ["PP_1614"; "PP_1167"])
  ∧ lines_newline_stripped raw = ["PP_1614" +:+ str1 CR; "PP_1167" +:+ str1 CR]
  ∧ read_gene_list raw ≠ lines_newline_stripped raw.
Proof. by split_and!. Qed.

(** A run of C7: blanks around an id survive, an empty line is kept. *)
Lemma gene_list_witness :
  let raw := concat_str ((λ l, l +:+ str1 LF) <$> [" PP_1614 "; EmptyString; "PP_1167"]) in
  let runner := @mkKnockout Toy.toy "/data/m.xml" "/out" "fba" None None ∅ "m"
                  "/out/m_knock_res.txt" in
  let w := Toy.world_with "/data/genes.txt" raw in
  @main_gene_list Toy.toy (Some "/data/genes.txt") runner w
    = (w, Ok (set_gene_list runner (read_gene_list raw)))
  ∧ read_gene_list raw = [" PP_1614 "; EmptyString; "PP_1167"].
Proof.
  intros raw runner w.
  destruct (@gene_list_is_lines_after_newline_translation Toy.toy runner
              "/data/genes.txt" raw w eq_refl) as (Hmain & _ & _ & Hback & _).
  split; [exact Hmain|].
  apply Hback; [|reflexivity].
  repeat constructor.
Defined.

(** ** Further properties of the loader *)

Section LoaderMore.
Context `{E : External}.

Lemma lower_char_dot d : Ascii.eqb DOT (lower_char d) = Ascii.eqb DOT d.
Proof. by destruct d as [[] [] [] [] [] [] [] []]. Qed.

Lemma lower_char_slash d : Ascii.eqb SLASH (lower_char d) = Ascii.eqb SLASH d.
Proof. by destruct d as [[] [] [] [] [] [] [] []]. Qed.

Lemma char_in_lower_dot s : char_in DOT (lower s) = char_in DOT s.
Proof.
  induction s as [|d s IH]; [done|]. cbn [lower char_in].
  by rewrite lower_char_dot, IH.
Qed.

Lemma char_in_lower_slash s : char_in SLASH (lower s) = char_in SLASH s.
Proof.
  induction s as [|d s IH]; [done|]. cbn [lower char_in].
  by rewrite lower_char_slash, IH.
Qed.

Lemma lower_app s t : lower (s +:+ t) = lower s +:+ lower t.
Proof.
  induction s as [|d s IH]; [done|]. rewrite app_cons. cbn [lower].
  by rewrite IH, app_cons.
Qed.

Lemma after_last_slash_lower s :
  after_last SLASH (lower s) = lower (after_last SLASH s).
Proof.
  induction s as [|d s IH]; [done|]. cbn [lower after_last].
  rewrite char_in_lower_slash, IH.
  destruct (char_in SLASH s); [done|].
  rewrite (Ascii.eqb_sym (lower_char d)), lower_char_slash, (Ascii.eqb_sym SLASH).
  by destruct (Ascii.eqb d SLASH).
Qed.

(** When the last component of a path has no dot, what follows the last
    dot of the path (or the whole path) still holds a slash. *)
Lemma after_last_dot_keeps_slash s :
  char_in SLASH s = true →
  char_in DOT (after_last SLASH s) = false →
  char_in SLASH (after_last DOT s) = true.
Proof.
  induction s as [|c rest IH]; [done|].
  cbn [after_last]. intros Hs.
  destruct (char_in SLASH rest) eqn:Hrest.
  - intros Hd. specialize (IH eq_refl Hd).
    destruct (char_in DOT rest); [done|].
    by destruct (Ascii.eqb c DOT).
  - cbn [char_in] in Hs. rewrite Hrest, orb_false_r in Hs.
    rewrite (Ascii.eqb_sym c SLASH), Hs. intros Hd. rewrite Hd.
    assert (Ascii.eqb c DOT = false) as ->.
    { apply Ascii.eqb_eq in Hs as <-. reflexivity. }
    cbn [char_in]. by rewrite Hs.
Qed.

Lemma known_ext_no_slash ext : char_in SLASH ext = true → known_ext ext = None.
Proof.
  intros Hs. unfold known_ext.
  destruct (String.eqb_spec ext "xml") as [->|_]; [done|].
  destruct (String.eqb_spec ext "json") as [->|_]; [done|].
  by destruct (String.eqb_spec ext "mat") as [->|_].
Qed.

(** X1: a path that does not exist is refused before anything else
    happens: [FileNotFoundError("Not Found <file>")], nothing logged, no
    parser called, the world as it was. *)
Theorem load_missing_path_touches_nothing
    (file : string) (kw : Kwargs) (w : World) :
  path_exists (fs w) file = false →
  load_model_from_file file kw w
    = (w, Raise (Exn FileNotFoundError ("Not Found " +:+ file))).
Proof.
  intros Hex. unfold load_model_from_file. unfold_M. by rewrite Hex.
Qed.

(** X2: any [OSError] of the parser, whatever its subclass and message
    ([FileNotFoundError], [PermissionError], ...), comes out as a plain
    [OSError("error <file>")] naming the path, not the extension. *)
Theorem load_parser_IOError_rewrapped
    (file : string) (kw : Kwargs) (w : World) (fmt : Format) (e : exn) :
  path_exists (fs w) file = true →
  known_ext (file_ext_of file) = Some fmt →
  parser fmt (fs w) file kw = Raise e →
  catches_IOError e = true →
  (load_model_from_file file kw w).2 = Raise (Exn OSError ("error " +:+ file)).
Proof.
  intros Hex Hext Hp Hio. rewrite (load_model_from_file_run _ _ _ Hex).
  cbn zeta. rewrite Hext, Hp.
  assert (catches_KeyError e = false) as ->; [|by rewrite Hio].
  unfold catches_KeyError, catches_IOError in *. by destruct (exn_cls e).
Qed.

(** X3: an exception of the parser that is neither a [KeyError] nor an
    [OSError] reaches the caller as it was raised. *)
Theorem load_parser_other_exception_unchanged
    (file : string) (kw : Kwargs) (w : World) (fmt : Format) (e : exn) :
  path_exists (fs w) file = true →
  known_ext (file_ext_of file) = Some fmt →
  parser fmt (fs w) file kw = Raise e →
  catches_KeyError e = false →
  catches_IOError e = false →
  (load_model_from_file file kw w).2 = Raise e.
Proof.
  intros Hex Hext Hp Hk Hio. rewrite (load_model_from_file_run _ _ _ Hex).
  cbn zeta. by rewrite Hext, Hp, Hk, Hio.
Qed.

(** X4: whatever the path, the world and the parsers, the loader never
    lets a [KeyError] out. *)
Theorem load_never_raises_KeyError
    (file : string) (kw : Kwargs) (w : World) (e : exn) :
  (load_model_from_file file kw w).2 = Raise e → exn_cls e ≠ KeyError.
Proof.
  destruct (path_exists (fs w) file) eqn:Hex.
  - rewrite (load_model_from_file_run _ _ _ Hex). cbn zeta.
    destruct (known_ext (file_ext_of file)) as [fmt|]; [|by intros [= <-]].
    destruct (parser fmt (fs w) file kw) as [m|e']; [done|].
    destruct (catches_KeyError e') eqn:Hk; [by intros [= <-]|].
    destruct (catches_IOError e'); [by intros [= <-]|].
    intros [= <-]. unfold catches_KeyError in Hk. by destruct (exn_cls e').
  - unfold load_model_from_file. unfold_M. rewrite Hex. by intros [= <-].
Qed.

End LoaderMore.

Section LoaderDispatch.
Context `{E : External}.

(** X5: the loader only reads.  It never changes the file system or
    runs a command, calls at most one parser, and logs exactly one line,
    the extension, when and only when the path exists, before any
    parser is tried and whatever the outcome. *)
Theorem load_effects
    (file : string) (kw : Kwargs) (w : World) :
  let w' := (load_model_from_file file kw w).1 in
  fs w' = fs w
  ∧ shell_calls w' = shell_calls w
  ∧ log w' = (if path_exists (fs w) file
              then (log w ++ [LogInfo "load_model_from_file" (file_ext_of file)])%list
              else log w)
  ∧ ∃ calls, parser_calls w' = (parser_calls w ++ calls)%list
             ∧ (length calls ≤ 1)%nat.
Proof.
  cbn zeta. destruct (path_exists (fs w) file) eqn:Hex.
  - rewrite (load_model_from_file_run _ _ _ Hex). cbn zeta.
    destruct (known_ext (file_ext_of file)) as [fmt|].
    + assert (∀ r : result Model,
        let w2 := add_parser_call (fmt, file)
                    (add_log (LogInfo "load_model_from_file" (file_ext_of file)) w) in
        fs (w2, r).1 = fs w ∧ shell_calls (w2, r).1 = shell_calls w
        ∧ log (w2, r).1
          = (log w ++ [LogInfo "load_model_from_file" (file_ext_of file)])%list
        ∧ ∃ calls, parser_calls (w2, r).1 = (parser_calls w ++ calls)%list
                   ∧ (length calls ≤ 1)%nat) as Hany.
      { intros r. cbn. split_and!; try done. by exists [(fmt, file)]. }
      destruct (parser fmt (fs w) file kw) as [m|e]; [apply Hany|].
      destruct (catches_KeyError e); [apply Hany|].
      destruct (catches_IOError e); apply Hany.
    + cbn. split_and!; try done. exists []. rewrite app_nil_r. split; [done|cbn; lia].
  - unfold load_model_from_file. unfold_M. rewrite Hex. cbn.
    split_and!; try done. exists []. rewrite app_nil_r. split; [done|cbn; lia].
Qed.

Lemma file_ext_of_suffix stem ext :
  char_in DOT ext = false → file_ext_of (stem +:+ String DOT ext) = lower ext.
Proof.
  intros Hd. rewrite file_ext_after_last, lower_app. cbn [lower].
  change (lower_char DOT) with DOT.
  apply after_last_app. by rewrite char_in_lower_dot.
Qed.

(** X6: the extension is matched without regard to case.  For an
    existing path [stem.ext] whose [ext] has no dot, the parser chosen
    is the one of [ext] in lower case, and it is called on the path as
    it was given. *)
Theorem load_extension_case_insensitive
    (stem ext : string) (kw : Kwargs) (w : World) (fmt : Format) :
  let file := stem +:+ String DOT ext in
  path_exists (fs w) file = true →
  char_in DOT ext = false →
  known_ext (lower ext) = Some fmt →
  parser_calls (load_model_from_file file kw w).1
    = (parser_calls w ++ [(fmt, file)])%list
  ∧ log (load_model_from_file file kw w).1
    = (log w ++ [LogInfo "load_model_from_file" (lower ext)])%list.
Proof.
  intros file Hex Hd Hext. rewrite (load_model_from_file_run _ _ _ Hex).
  cbn zeta. unfold file. rewrite (file_ext_of_suffix _ _ Hd), Hext.
  destruct (parser fmt (fs w) (stem +:+ String DOT ext) kw) as [m|e]; [done|].
  by destruct (catches_KeyError e), (catches_IOError e).
Qed.

(** X7: only the last dot of the whole path counts.  When a path has a
    directory part and its last component has no dot, the "extension"
    holds a slash (it starts at a dot of a directory name, or is the
    whole path), so it is none of the known three: the loader raises
    [FileNotFoundError("error <ext>")] and calls no parser. *)
Theorem load_dotless_name_in_directory
    (file : string) (kw : Kwargs) (w : World) :
  path_exists (fs w) file = true →
  char_in SLASH file = true →
  char_in DOT (after_last SLASH file) = false →
  char_in SLASH (file_ext_of file) = true
  ∧ (load_model_from_file file kw w).2
    = Raise (Exn FileNotFoundError ("error " +:+ file_ext_of file))
  ∧ parser_calls (load_model_from_file file kw w).1 = parser_calls w.
Proof.
  intros Hex Hs Hd.
  assert (char_in SLASH (file_ext_of file) = true) as Hext.
  { rewrite file_ext_after_last. apply after_last_dot_keeps_slash.
    - by rewrite char_in_lower_slash.
    - by rewrite after_last_slash_lower, char_in_lower_dot. }
  split; [done|].
  rewrite (load_model_from_file_run _ _ _ Hex). cbn zeta.
  by rewrite (known_ext_no_slash _ Hext).
Qed.

End LoaderDispatch.

(** X2 on a parser that cannot find its file. *)
Lemma load_parser_IOError_witness :
  let w := mkWorld (mkFS ∅ {[ "/data/m.xml" ]}) [] [] [] in
  (@load_model_from_file Toy.toy "/data/m.xml" tt w).2
    = Raise (Exn OSError "error /data/m.xml").
Proof.
  intros w.
  apply (@load_parser_IOError_rewrapped Toy.toy "/data/m.xml" tt w Sbml
           (Exn OSError "/data/m.xml")); reflexivity.
Defined.

(** X1 on an empty file system. *)
Lemma load_missing_path_witness :
  @load_model_from_file Toy.toy "/data/m.xml" tt Toy.empty_world
    = (Toy.empty_world, Raise (Exn FileNotFoundError "Not Found /data/m.xml")).
Proof.
  apply (@load_missing_path_touches_nothing Toy.toy "/data/m.xml" tt
           Toy.empty_world).
  reflexivity.
Defined.

(** X4 on a file whose parser raises [KeyError]. *)
Lemma load_never_KeyError_witness :
  exn_cls (Exn FileNotFoundError "error json") ≠ KeyError.
Proof.
  apply (@load_never_raises_KeyError Toy.toy "/data/m.json" tt
           (Toy.world_with "/data/m.json" "KEY")).
  reflexivity.
Defined.

(** X6 on [/data/Ecoli.XML]. *)
Lemma load_extension_case_witness :
  let w := Toy.world_with "/data/Ecoli.XML" "b0001=thrL" in
  parser_calls (@load_model_from_file Toy.toy "/data/Ecoli.XML" tt w).1
    = [(Sbml, "/data/Ecoli.XML")]
  ∧ log (@load_model_from_file Toy.toy "/data/Ecoli.XML" tt w).1
    = [LogInfo "load_model_from_file" "xml"].
Proof.
  intros w.
  apply (@load_extension_case_insensitive Toy.toy "/data/Ecoli" "XML" tt w Sbml);
    reflexivity.
Defined.

(** X7 on [/data.v2/model]: the extension is [v2/model]. *)
Lemma load_dotless_name_witness :
  let w := Toy.world_with "/data.v2/model" "b0001=thrL" in
  char_in SLASH (file_ext_of "/data.v2/model") = true
  ∧ (@load_model_from_file Toy.toy "/data.v2/model" tt w).2
    = Raise (Exn FileNotFoundError "error v2/model")
  ∧ parser_calls (@load_model_from_file Toy.toy "/data.v2/model" tt w).1 = [].
Proof.
  intros w.
  apply (@load_dotless_name_in_directory Toy.toy "/data.v2/model" tt w);
    reflexivity.
Defined.

(** X3 on a parser that rejects the content of the file. *)
Lemma load_parser_other_exception_witness :
  let w := Toy.world_with "/data/m.mat" "BAD" in
  (@load_model_from_file Lab.lab "/data/m.mat" tt w).2
    = Raise (Exn ValueError "bad model").
Proof.
  intros w.
  apply (@load_parser_other_exception_unchanged Lab.lab "/data/m.mat" tt w
           Matlab (Exn ValueError "bad model")); reflexivity.
Defined.

(** ** Further properties of the constructor *)

Section ConstructorMore.
Context `{E : External}.

Lemma after_last_no_sep sep s : char_in sep (after_last sep s) = false.
Proof.
  induction s as [|c rest IH]; [done|]. cbn [after_last].
  destruct (char_in sep rest) eqn:Hrest; [done|].
  destruct (Ascii.eqb c sep) eqn:Hc; [done|].
  cbn [char_in]. by rewrite Ascii.eqb_sym, Hc, Hrest.
Qed.

Lemma before_first_no_sep sep s : char_in sep (before_first sep s) = false.
Proof.
  induction s as [|c rest IH]; [done|]. cbn [before_first].
  destruct (Ascii.eqb c sep) eqn:Hc; [done|].
  cbn [char_in]. by rewrite Ascii.eqb_sym, Hc, IH.
Qed.

Lemma before_first_subset c sep s :
  char_in c s = false → char_in c (before_first sep s) = false.
Proof.
  induction s as [|d rest IH]; [done|]. cbn [char_in before_first].
  rewrite orb_false_iff. intros [Hd Hrest].
  destruct (Ascii.eqb d sep); [done|].
  cbn [char_in]. by rewrite Hd, IH.
Qed.

(** X8: for a model file [dir/stem.ext] (or [stem.ext] alone), with no
    slash or dot in [stem] and no slash in [ext], [out_name] is [stem]
    whatever the directory and whatever follows the first dot; so models
    of the same stem, in any directory and format, share one result
    file in a given [outdir]. *)
Theorem out_name_is_stem (dir stem ext outdir : string) :
  char_in SLASH stem = false →
  char_in DOT stem = false →
  char_in SLASH ext = false →
  out_name_of (dir +:+ String SLASH (stem +:+ String DOT ext)) = stem
  ∧ out_name_of (stem +:+ String DOT ext) = stem
  ∧ out_res_of outdir (out_name_of (dir +:+ String SLASH (stem +:+ String DOT ext)))
    = outdir +:+ "/" +:+ stem +:+ "_knock_res.txt".
Proof.
  intros Hs Hd He.
  assert (char_in SLASH (stem +:+ String DOT ext) = false) as Hbase.
  { rewrite char_in_app. cbn [char_in]. by rewrite Hs, He. }
  assert (out_name_of (dir +:+ String SLASH (stem +:+ String DOT ext)) = stem) as H1.
  { rewrite out_name_first_dot, (after_last_app _ _ _ Hbase).
    by apply before_first_app. }
  split_and!; [done| |by rewrite H1].
  rewrite out_name_first_dot.
  assert (after_last SLASH (stem +:+ String DOT ext) = stem +:+ String DOT ext) as ->.
  { pose proof (index_last_split SLASH (stem +:+ String DOT ext)) as Hl.
    rewrite (split_no_sep _ _ Hbase) in Hl. by rewrite <- Hl. }
  by apply before_first_app.
Qed.

(** X9: whatever the model file, [out_name] holds neither a slash nor a
    dot: the result file always lies directly in [outdir], under a name
    whose only dot is the one of [_knock_res.txt]. *)
Theorem out_name_is_one_plain_component (mf : string) :
  char_in SLASH (out_name_of mf) = false
  ∧ char_in DOT (out_name_of mf) = false.
Proof.
  rewrite out_name_first_dot. split.
  - apply before_first_subset, after_last_no_sep.
  - apply before_first_no_sep.
Qed.

(** X10: when [outdir] is missing and the shell reports a failure, the
    constructor raises [CalledProcessError] for the command it ran;
    nothing is logged, and whatever the command did to the file system
    stays. *)
Theorem Knockout_init_mkdir_failure
    (mf od meth : string) (w : World) (code : nat) :
  path_exists (fs w) od = false →
  (shell ("mkdir -p " +:+ od) (fs w)).2 = S code →
  Knockout_init mf od meth w
    = (mkWorld (shell ("mkdir -p " +:+ od) (fs w)).1 (log w) (parser_calls w)
         (shell_calls w ++ ["mkdir -p " +:+ od])%list,
       Raise (Exn CalledProcessError ("mkdir -p " +:+ od))).
Proof.
  intros Hex Hcode. rewrite Knockout_init_run, Hex. cbn zeta. by rewrite Hcode.
Qed.

(** X11: the constructor returns an object exactly when [outdir] exists
    or the shell reports success; it never checks that the directory is
    there afterwards, never logs and never calls a parser. *)
Theorem Knockout_init_succeeds_iff
    (mf od meth : string) (w : World) :
  ((∃ self, (Knockout_init mf od meth w).2 = Ok self)
     ↔ path_exists (fs w) od = true
       ∨ (shell ("mkdir -p " +:+ od) (fs w)).2 = 0)
  ∧ log (Knockout_init mf od meth w).1 = log w
  ∧ parser_calls (Knockout_init mf od meth w).1 = parser_calls w.
Proof.
  rewrite Knockout_init_run. cbn zeta.
  destruct (path_exists (fs w) od).
  - split_and!; try done. split; [by left|by eexists].
  - destruct ((shell ("mkdir -p " +:+ od) (fs w)).2) as [|code];
      split_and!; try done.
    + split; [by right|by eexists].
    + split; [by intros [self [=]]|by intros [|]].
Qed.

End ConstructorMore.

(** X8 on two models of the same stem. *)
Lemma out_name_is_stem_witness :
  out_name_of "/models/v1/iJN746.xml" = "iJN746"
  ∧ out_name_of "iJN746.json.gz" = "iJN746"
  ∧ out_res_of "/out" (out_name_of "/models/v1/iJN746.xml")
    = "/out/iJN746_knock_res.txt".
Proof.
  destruct (out_name_is_stem "/models/v1" "iJN746" "xml" "/out"
              eq_refl eq_refl eq_refl) as (H1 & _ & H3).
  destruct (out_name_is_stem EmptyString "iJN746" "json.gz" "/out"
              eq_refl eq_refl eq_refl) as (_ & H2 & _).
  by split_and!.
Defined.

(** X10 on the directory the shell cannot create. *)
Lemma Knockout_init_mkdir_failure_witness :
  @Knockout_init Lab.lab "m.xml" "/ro" "fba" Toy.empty_world
    = (mkWorld (mkFS ∅ ∅) [] [] ["mkdir -p /ro"],
       Raise (Exn CalledProcessError "mkdir -p /ro")).
Proof.
  apply (@Knockout_init_mkdir_failure Lab.lab "m.xml" "/ro" "fba"
           Toy.empty_world 0); reflexivity.
Defined.

(** ** Further properties of the gene table *)

Section GeneInfoMore.
Context `{E : External}.

Implicit Types (g : gmap string string) (gs : list Gene).

Lemma update_gene_info_idem g gs :
  update_gene_info (update_gene_info g gs) gs = update_gene_info g gs.
Proof.
  apply map_eq. intros i. rewrite !update_gene_info_lookup.
  by destruct (name_of_last i gs).
Qed.

Lemma name_of_last_None i gs :
  name_of_last i gs = None ↔ i ∉ gene_id <$> gs.
Proof.
  induction gs as [|r gs IH]; cbn.
  - split; [intros _; apply not_elem_of_nil|done].
  - rewrite not_elem_of_cons, <- IH.
    destruct (name_of_last i gs); [naive_solver|].
    destruct (String.eqb_spec (gene_id r) i); naive_solver.
Qed.

Lemma size_list_to_set_le (l : list string) :
  (size (list_to_set l : gset string) ≤ length l)%nat
  ∧ (size (list_to_set l : gset string) = length l → NoDup l).
Proof.
  induction l as [|x l [IHle IHnd]]; [split; [done|constructor]|].
  rewrite list_to_set_cons, size_union_alt, size_singleton. cbn [length].
  assert (size (list_to_set l ∖ {[x]} : gset string)
          ≤ size (list_to_set l : gset string))%nat as Hle
    by (apply subseteq_size; set_solver).
  split; [lia|]. intros Heq.
  apply NoDup_cons. split; [|apply IHnd; lia].
  intros Hin.
  assert (size (list_to_set l ∖ {[x]} : gset string)
          < size (list_to_set l : gset string))%nat; [|lia].
  apply subset_size. apply strict_spec_alt. split; [set_solver|].
  intros Hsame.
  assert (x ∈ (list_to_set l : gset string)) as Hx by set_solver.
  rewrite <- Hsame in Hx. set_solver.
Qed.

(** X12: loading the same model a second time changes nothing: the
    object after the second load is the object after the first, and the
    same count is logged, whatever [gene_info] held before the first
    load. *)
Theorem load_data_same_model_twice
    (self self1 : Knockout) (w w1 w' w2 : World) (m : Model) :
  load_model_from_file (model_file self) no_kwargs w = (w1, Ok m) →
  (load_data self w).2 = Ok self1 →
  load_model_from_file (model_file self1) no_kwargs w' = (w2, Ok m) →
  load_data self1 w'
    = (add_log (LogInfo "parse_gene_info_from_model"
                  ("Total Genes: " +:+ pretty (size (gene_info self1)))) w2,
       Ok self1).
Proof.
  intros Hl1 Hs1 Hl2.
  rewrite (load_data_run _ _ _ _ Hl1) in Hs1. cbn zeta in Hs1.
  injection Hs1 as <-.
  rewrite (load_data_run _ _ _ _ Hl2). cbn zeta.
  cbn [gene_info set_gene_info set_model_obj].
  by rewrite update_gene_info_idem.
Qed.

(** X13: whatever [gene_info] held, a load never removes an entry: an
    id of the model gets the name of the last gene carrying it, every
    other id keeps the entry it had (or stays absent). *)
Theorem load_data_keeps_other_entries
    (self self' : Knockout) (w w1 : World) (m : Model) :
  load_model_from_file (model_file self) no_kwargs w = (w1, Ok m) →
  (load_data self w).2 = Ok self' →
  dom (gene_info self) ⊆ dom (gene_info self')
  ∧ (∀ i, i ∈ gene_id <$> genes m →
          gene_info self' !! i = name_of_last i (genes m)
          ∧ is_Some (gene_info self' !! i))
  ∧ (∀ i, i ∉ gene_id <$> genes m →
          gene_info self' !! i = gene_info self !! i).
Proof.
  intros Hl Hs. rewrite (load_data_run _ _ _ _ Hl) in Hs. cbn zeta in Hs.
  injection Hs as <-. cbn [gene_info set_gene_info set_model_obj].
  split_and!.
  - rewrite update_gene_info_dom. set_solver.
  - intros i Hi. rewrite update_gene_info_lookup.
    destruct (name_of_last i (genes m)) as [n|] eqn:Hn; [by split; [|eexists]|].
    by apply name_of_last_None in Hn.
  - intros i Hi. rewrite update_gene_info_lookup.
    by apply name_of_last_None in Hi as ->.
Qed.

(** X14: on a fresh object the number logged as [Total Genes] is the
    number of distinct gene ids: it never exceeds the number of genes of
    the model and equals it exactly when no id occurs twice. *)
Theorem total_genes_counts_distinct_ids
    (self self' : Knockout) (w w1 : World) (m : Model) :
  gene_info self = ∅ →
  load_model_from_file (model_file self) no_kwargs w = (w1, Ok m) →
  (load_data self w).2 = Ok self' →
  log (load_data self w).1
    = (log w1 ++ [LogInfo "parse_gene_info_from_model"
                    ("Total Genes: " +:+ pretty (size (gene_info self')))])%list
  ∧ size (gene_info self') = size (list_to_set (gene_id <$> genes m) : gset string)
  ∧ (size (gene_info self') ≤ length (genes m))%nat
  ∧ (size (gene_info self') = length (genes m) ↔ NoDup (gene_id <$> genes m)).
Proof.
  intros Hg Hl Hs. rewrite (load_data_run _ _ _ _ Hl) in Hs |- *.
  cbn zeta in Hs |- *. injection Hs as <-.
  cbn [gene_info set_gene_info set_model_obj fst log add_log]. rewrite Hg.
  assert (size (update_gene_info ∅ (genes m))
          = size (list_to_set (gene_id <$> genes m) : gset string)) as Hsz.
  { rewrite <- size_dom, update_gene_info_dom, dom_empty_L.
    by rewrite (right_id_L ∅ (∪)). }
  destruct (size_list_to_set_le (gene_id <$> genes m)) as [Hle Hnd].
  rewrite length_fmap in Hle, Hnd.
  split_and!; [done|done|lia|].
  split; [intros Heq; apply Hnd; lia|].
  intros Hno. by apply update_gene_info_size.
Qed.

(** X15: [set_gene_list] and [load_data] do not interfere: setting the
    list before the load gives what setting it after the load gives. *)
Theorem set_gene_list_commutes_with_load_data
    (self : Knockout) (gl : list string) (w : World) :
  load_data (set_gene_list self gl) w
  = match load_data self w with
    | (w', Ok self') => (w', Ok (set_gene_list self' gl))
    | (w', Raise e) => (w', Raise e)
    end.
Proof.
  unfold load_data, parse_gene_info_from_model. unfold_M.
  cbn [model_file set_gene_list].
  by destruct (load_model_from_file (model_file self) no_kwargs w) as [w' [m|e]].
Qed.

(** X16: when the loader raises, [load_data] raises the same exception
    in the same world: no [Total Genes] line is logged. *)
Theorem load_data_propagates_loader_error
    (self : Knockout) (w w1 : World) (e : exn) :
  load_model_from_file (model_file self) no_kwargs w = (w1, Raise e) →
  load_data self w = (w1, Raise e).
Proof.
  intros Hl. unfold load_data. unfold_M. by rewrite Hl.
Qed.

End GeneInfoMore.

(** X12 on a two-gene model loaded twice. *)
Lemma load_data_same_model_twice_witness :
  let self := mkKnockout "/data/m.json" "/out" "fba" None None ∅ "m"
                "/out/m_knock_res.txt" in
  let w := Toy.world_with "/data/m.json" ("b1=thrL" +:+ str1 LF +:+ "b2=thrA") in
  let m := [mkGene "b1" "thrL"; mkGene "b2" "thrA"] in
  let self1 := set_gene_info (@set_model_obj Toy.toy self m)
                 {[ "b1" := "thrL"; "b2" := "thrA" ]} in
  let w1 := add_parser_call (Json, "/data/m.json")
              (add_log (LogInfo "load_model_from_file" "json") w) in
  @load_data Toy.toy self1 w
    = (add_log (LogInfo "parse_gene_info_from_model" "Total Genes: 2") w1,
       Ok self1).
Proof.
  intros self w m self1 w1.
  assert ((@load_data Toy.toy self w).2 = Ok self1) as Hfirst.
  { vm_compute. reflexivity. }
  exact (@load_data_same_model_twice Toy.toy self self1 w w1 w w1 m
           eq_refl Hfirst eq_refl).
Defined.

(** X13: an entry from an earlier model survives the load of a model
    that does not have its id. *)
Lemma load_data_keeps_other_entries_witness :
  let self := mkKnockout "/data/m.json" "/out" "fba" None None
                {[ "old" := "gone" ]} "m" "/out/m_knock_res.txt" in
  let w := Toy.world_with "/data/m.json" "b1=thrL" in
  ∃ self', (@load_data Toy.toy self w).2 = Ok self'
           ∧ gene_info self' !! "old" = Some "gone"
           ∧ gene_info self' !! "b1" = Some "thrL".
Proof.
  intros self w.
  pose (self' := set_gene_info (@set_model_obj Toy.toy self [mkGene "b1" "thrL"])
                   (@update_gene_info {[ "old" := "gone" ]} [mkGene "b1" "thrL"])).
  destruct (@load_data_keeps_other_entries Toy.toy self self' w
              (add_parser_call (Json, "/data/m.json")
                 (add_log (LogInfo "load_model_from_file" "json") w))
              [mkGene "b1" "thrL"] eq_refl eq_refl) as (_ & Hin & Hout).
  exists self'. split_and!; [reflexivity| |].
  - rewrite Hout; [reflexivity|]. cbn. set_solver.
  - destruct (Hin "b1") as [-> _]; [cbn; set_solver|reflexivity].
Defined.

(** X14 on a model that lists the id [b1] twice: three genes, two ids. *)
Lemma total_genes_counts_distinct_ids_witness :
  let self := mkKnockout "/data/m.json" "/out" "fba" None None ∅ "m"
                "/out/m_knock_res.txt" in
  let raw := "b1=thrL" +:+ str1 LF +:+ "b1=thrX" +:+ str1 LF +:+ "b2=thrA" in
  let w := Toy.world_with "/data/m.json" raw in
  log (@load_data Toy.toy self w).1
    = [LogInfo "load_model_from_file" "json";
       LogInfo "parse_gene_info_from_model" "Total Genes: 2"]
  ∧ ¬ NoDup ["b1"; "b1"; "b2"].
Proof.
  intros self raw w.
  pose (m := [mkGene "b1" "thrL"; mkGene "b1" "thrX"; mkGene "b2" "thrA"]).
  pose (self' := set_gene_info (@set_model_obj Toy.toy self m)
                   (@update_gene_info ∅ m)).
  destruct (@total_genes_counts_distinct_ids Toy.toy self self' w
              (add_parser_call (Json, "/data/m.json")
                 (add_log (LogInfo "load_model_from_file" "json") w))
              m eq_refl eq_refl eq_refl) as (Hlog & _ & _ & Hiff).
  split; [rewrite Hlog; reflexivity|].
  intros Hnd. apply Hiff in Hnd. vm_compute in Hnd. discriminate.
Defined.

(** X16 on a model file that is not there. *)
Lemma load_data_propagates_witness :
  let self := mkKnockout "/data/m.json" "/out" "fba" None None ∅ "m"
                "/out/m_knock_res.txt" in
  @load_data Toy.toy self Toy.empty_world
    = (Toy.empty_world, Raise (Exn FileNotFoundError "Not Found /data/m.json")).
Proof.
  intros self.
  exact (@load_data_propagates_loader_error Toy.toy self Toy.empty_world
           Toy.empty_world _ eq_refl).
Defined.

(** ** Further properties of [run_knockout] *)

Section RunMore.
Context `{E : External}.

Lemma apply_series_app_raise {A B} (f : A → result B) pre x post e :
  Forall (λ a, ∃ b, f a = Ok b) pre →
  f x = Raise e →
  apply_series f (pre ++ x :: post)%list = Raise e.
Proof.
  intros Hpre Hx. induction Hpre as [|a pre [b Hb] _ IH]; cbn.
  - by rewrite Hx.
  - by rewrite Hb, IH.
Qed.

(** The rows whose id can be taken out of its set and found in [g]. *)
Lemma apply_series_both (g : gmap string string) (table : list (Row Float)) :
  Forall (λ r, ∃ i rest, ids r = i :: rest ∧ is_Some (g !! i)) table →
  ∃ idcol namecol,
    apply_series first_of_set (ids <$> table) = Ok idcol
    ∧ apply_series (getitem g) idcol = Ok namecol.
Proof.
  induction 1 as [|r table (i & rest & Hr & [n Hn]) _ (idcol & namecol & H1 & H2)].
  - by exists [], [].
  - exists (i :: idcol), (n :: namecol). cbn. rewrite Hr. cbn. rewrite H1.
    split; [done|]. unfold getitem at 1. by rewrite Hn, H2.
Qed.


Lemma counter_add_total k c :
  sum_list ((counter_add k c).*2) = S (sum_list (c.*2)).
Proof.
  induction c as [|[k' n] c IH]; [done|]. cbn.
  destruct (String.eqb k k'); cbn; [done|]. rewrite IH. lia.
Qed.

Lemma Counter_total l : sum_list ((Counter l).*2) = length l.
Proof.
  unfold Counter. induction l as [|k l IH] using rev_ind; [done|].
  rewrite foldl_app, length_app. cbn. rewrite counter_add_total, IH. lia.
Qed.

(** X17: a failure of the deletion routine reaches the caller as it
    is, and the world is left as it was. *)
Theorem run_knockout_deletion_error
    (self : Knockout) (w : World) (e : exn) :
  single_gene_deletion (model_obj self) (gene_list self) (method self) = Raise e →
  run_knockout self w = (w, Raise e).
Proof.
  intros Hsgd. unfold run_knockout. unfold_M. by rewrite Hsgd.
Qed.

(** X18: the whole id column is normalised before any name is looked
    up: one row with an empty id set makes [run_knockout] raise
    [IndexError], whatever [gene_info] holds, and nothing is written. *)
Theorem run_knockout_empty_id_set
    (self : Knockout) (w : World) (table : list (Row Float)) (r : Row Float) :
  single_gene_deletion (model_obj self) (gene_list self) (method self) = Ok table →
  r ∈ table →
  ids r = [] →
  run_knockout self w = (w, Raise (Exn IndexError "list index out of range")).
Proof.
  intros Hsgd Hin Hr.
  assert (apply_series first_of_set (ids <$> table)
          = Raise (Exn IndexError "list index out of range")) as Hids.
  { clear Hsgd. induction table as [|r' table IH]; [by apply elem_of_nil in Hin|].
    cbn. destruct (ids r') as [|i rest] eqn:Hr'; [done|]. cbn.
    apply elem_of_cons in Hin as [->|Hin]; [congruence|]. by rewrite (IH Hin). }
  unfold run_knockout. unfold_M. rewrite Hsgd.
  change (map ids table) with (ids <$> table). by rewrite Hids.
Qed.

(** What a successful run tells about its stages. *)
Lemma run_knockout_Ok_inv self w :
  (run_knockout self w).2 = Ok tt →
  ∃ table idcol namecol,
    single_gene_deletion (model_obj self) (gene_list self) (method self) = Ok table
    ∧ apply_series first_of_set (ids <$> table) = Ok idcol
    ∧ apply_series (getitem (gene_info self)) idcol = Ok namecol
    ∧ is_dir (fs w) (parent_dir (out_res self)) = true
    ∧ is_dir (fs w) (out_res self) = false.
Proof.
  unfold run_knockout, write_file. unfold_M.
  destruct (single_gene_deletion (model_obj self) (gene_list self) (method self))
    as [table|e] eqn:Hsgd; [|done].
  change (map ids table) with (ids <$> table).
  destruct (apply_series first_of_set (ids <$> table)) as [idcol|e] eqn:Hids;
    [|done].
  destruct (apply_series (getitem (gene_info self)) idcol) as [namecol|e] eqn:Hn;
    [|done].
  cbn. destruct (is_dir (fs w) (parent_dir (out_res self))); [|done]. cbn.
  destruct (is_dir (fs w) (out_res self)); [done|].
  intros _. by exists table, idcol, namecol.
Qed.



(** X21: the [KeyError] names the first id, in table order, that
    [gene_info] lacks; ids after it are never looked up. *)
Theorem run_knockout_first_missing_id
    (self : Knockout) (w : World) (table : list (Row Float))
    (pre post : list string) (k : string) :
  single_gene_deletion (model_obj self) (gene_list self) (method self) = Ok table →
  apply_series first_of_set (ids <$> table) = Ok (pre ++ k :: post)%list →
  Forall (λ i, is_Some (gene_info self !! i)) pre →
  gene_info self !! k = None →
  run_knockout self w = (w, Raise (Exn KeyError k)).
Proof.
  intros Hsgd Hids Hpre Hk.
  assert (apply_series (getitem (gene_info self)) (pre ++ k :: post)%list
          = Raise (Exn KeyError k)) as Hn.
  { apply apply_series_app_raise.
    - eapply Forall_impl; [exact Hpre|]. intros i [n Hi].
      exists n. unfold getitem. by rewrite Hi.
    - unfold getitem. by rewrite Hk. }
  unfold run_knockout. unfold_M. rewrite Hsgd.
  change (map ids table) with (ids <$> table). by rewrite Hids, Hn.
Qed.

(** X22: a successful run adds one entry to the log, the histogram of
    the statuses, and the counts in it add up to the number of rows of
    the table. *)
Theorem run_knockout_histogram_total
    (self : Knockout) (w : World) (table : list (Row Float)) :
  single_gene_deletion (model_obj self) (gene_list self) (method self) = Ok table →
  (run_knockout self w).2 = Ok tt →
  ∃ counts,
    log (run_knockout self w).1 = (log w ++ [LogCounter "run_knockout" counts])%list
    ∧ sum_list (counts.*2) = length table.
Proof.
  intros Hsgd Hok. exists (Counter (status <$> table)).
  destruct (run_knockout_Ok_inv _ _ Hok)
    as (table' & idcol & namecol & Hsgd' & Hids & Hn & Hdir & Hfile).
  assert (table' = table) as -> by congruence.
  rewrite (run_knockout_ok _ _ _ _ _ Hsgd Hids Hn Hdir Hfile). cbn.
  split; [done|]. by rewrite Counter_total, length_fmap.
Qed.

End RunMore.

(** X17 with a method the deletion routine rejects. *)
Lemma run_knockout_deletion_error_witness :
  let self := @mkKnockout Lab.lab "/data/m.xml" "/out" "boom" None
                (Some [mkGene "A" "alpha"]) {[ "A" := "alpha" ]} "m"
                "/out/m_knock_res.txt" in
  @run_knockout Lab.lab self Toy.empty_world
    = (Toy.empty_world, Raise (Exn ValueError "boom")).
Proof.
  intros self.
  exact (@run_knockout_deletion_error Lab.lab self Toy.empty_world _ eq_refl).
Defined.

(** X18: the second row has an empty id set, the first an id that
    [gene_info] lacks; the [IndexError] wins. *)
Lemma run_knockout_empty_id_set_witness :
  let self := @mkKnockout Lab.lab "/data/m.xml" "/out" "fba"
                (Some ["Z"; EmptyString])
                (Some [mkGene "A" "alpha"]) {[ "A" := "alpha" ]} "m"
                "/out/m_knock_res.txt" in
  @run_knockout Lab.lab self Toy.empty_world
    = (Toy.empty_world, Raise (Exn IndexError "list index out of range")).
Proof.
  intros self.
  apply (@run_knockout_empty_id_set Lab.lab self Toy.empty_world
           [Lab.lab_row "Z"; Lab.lab_row EmptyString] (Lab.lab_row EmptyString)).
  - reflexivity.
  - rewrite !elem_of_cons. auto.
  - reflexivity.
Defined.

(** X21: Z and Y are both missing; Z comes first. *)
Lemma run_knockout_first_missing_id_witness :
  let self := @mkKnockout Toy.toy "/data/m.xml" "/out" "fba"
                (Some ["A"; "Z"; "Y"])
                (Some [mkGene "A" "alpha"]) {[ "A" := "alpha" ]} "m"
                "/out/m_knock_res.txt" in
  @run_knockout Toy.toy self Toy.empty_world
    = (Toy.empty_world, Raise (Exn KeyError "Z")).
Proof.
  intros self.
  apply (@run_knockout_first_missing_id Toy.toy self Toy.empty_world
           [Toy.toy_row "A"; Toy.toy_row "Z"; Toy.toy_row "Y"] ["A"] ["Y"] "Z").
  - reflexivity.
  - reflexivity.
  - repeat constructor. by eexists.
  - reflexivity.
Defined.

(** X22 on three rows, two of them optimal. *)
Lemma run_knockout_histogram_witness :
  let self := @mkKnockout Toy.toy "/data/m.xml" "/out" "fba"
                (Some ["A"; "B"; "A"])
                (Some [mkGene "A" "alpha"; mkGene "B" "beta"])
                {[ "A" := "alpha"; "B" := "beta" ]} "m"
                "/out/m_knock_res.txt" in
  ∃ counts,
    log (@run_knockout Toy.toy self (Toy.world_with "/data/m.xml" "A=alpha")).1
      = [LogCounter "run_knockout" counts]
    ∧ sum_list (counts.*2) = 3.
Proof.
  intros self.
  exact (@run_knockout_histogram_total Toy.toy self
           (Toy.world_with "/data/m.xml" "A=alpha")
           [Toy.toy_row "A"; Toy.toy_row "B"; Toy.toy_row "A"] eq_refl eq_refl).
Defined.

(** ** The command line, end to end *)

Section MainMore.
Context `{E : External}.

Lemma Knockout_init_Ok mf od meth w w1 self0 :
  Knockout_init mf od meth w = (w1, Ok self0) →
  self0 = mkKnockout mf od meth None None ∅ (out_name_of mf)
            (out_res_of od (out_name_of mf)).
Proof.
  rewrite Knockout_init_run. cbn zeta.
  destruct (path_exists (fs w) od); [by intros [= _ <-]|].
  by destruct ((shell ("mkdir -p " +:+ od) (fs w)).2); [intros [= _ <-]|].
Qed.


Lemma load_model_from_file_fs file kw w :
  fs (load_model_from_file file kw w).1 = fs w
  ∧ shell_calls (load_model_from_file file kw w).1 = shell_calls w.
Proof.
  destruct (path_exists (fs w) file) eqn:Hex.
  - rewrite (load_model_from_file_run _ _ _ Hex). cbn zeta.
    destruct (known_ext (file_ext_of file)) as [fmt|]; [|done].
    destruct (parser fmt (fs w) file kw) as [m|e]; [done|].
    by destruct (catches_KeyError e), (catches_IOError e).
  - unfold load_model_from_file. unfold_M. by rewrite Hex.
Qed.



Lemma before_last_app sep d base :
  char_in sep base = false → before_last sep (d +:+ String sep base) = d.
Proof.
  intros Hb. induction d as [|c d IH].
  - rewrite app_empty_l. cbn [before_last]. by rewrite Hb.
  - rewrite app_cons. cbn [before_last]. rewrite char_in_app. cbn [char_in].
    by rewrite Ascii.eqb_refl, orb_true_r, IH.
Qed.

(** The result file lies in [outdir]. *)
Lemma parent_dir_out_res od mf :
  od ≠ EmptyString → parent_dir (out_res_of od (out_name_of mf)) = od.
Proof.
  intros Hod. unfold out_res_of, parent_dir.
  change ("/" +:+ ?t) with (String SLASH t).
  assert (char_in SLASH (out_name_of mf +:+ "_knock_res.txt") = false) as Hb.
  { rewrite char_in_app, out_name_first_dot.
    by rewrite (before_first_subset _ _ _ (after_last_no_sep SLASH mf)). }
  rewrite char_in_app. cbn [char_in]. rewrite Ascii.eqb_refl, orb_true_r.
  rewrite (before_last_app _ _ _ Hb). by destruct od.
Qed.

(** [main] as the chain of its four steps. *)
Lemma main_run args w :
  main args w
  = match Knockout_init (arg_model_file args) (arg_outdir args) (arg_method args) w with
    | (w1, Raise e) => (w1, Raise e)
    | (w1, Ok r0) =>
        match main_gene_list (arg_gene_list args) r0 w1 with
        | (w2, Raise e) => (w2, Raise e)
        | (w2, Ok r1) =>
            match load_data r1 w2 with
            | (w3, Raise e) => (w3, Raise e)
            | (w3, Ok r2) => run_knockout r2 w3
            end
        end
    end.
Proof. reflexivity. Qed.

(** X23: when the gene-list file cannot be opened, [main] stops right
    after the constructor, in the world the constructor left: the
    exception is [FileNotFoundError] (an [OSError] if the path is a
    directory), and the model is never loaded. *)
Theorem main_gene_list_file_missing
    (mf od meth path : string) (w w1 : World) (runner : Knockout) :
  Knockout_init mf od meth w = (w1, Ok runner) →
  files (fs w1) !! path = None →
  main (mkArgs mf od meth (Some path)) w
  = (w1, Raise (Exn (if bool_decide (path ∈ dirs (fs w1))
                     then OSError else FileNotFoundError) path))
  ∧ parser_calls (main (mkArgs mf od meth (Some path)) w).1 = parser_calls w.
Proof.
  intros Hinit Hfile. rewrite main_run. cbn [arg_model_file arg_outdir
    arg_method arg_gene_list]. rewrite Hinit.
  unfold main_gene_list, open_read. unfold_M. rewrite Hfile. cbn.
  split; [done|].
  pose proof (Knockout_init_run mf od meth w) as Hrun. rewrite Hinit in Hrun.
  cbn zeta in Hrun. destruct (path_exists (fs w) od); [by injection Hrun as ->|].
  destruct ((shell ("mkdir -p " +:+ od) (fs w)).2); by injection Hrun as ->.
Qed.


(** X25: the whole run succeeds when the constructor returns with
    [outdir] in place as a directory, the
    gene list (if any) can be read, the model loads, and the deletion
    routine, given that model, the ids read from the gene list (or
    [None]) and the method, returns rows whose id sets are singletons of
    gene ids of the model.  The result file then holds the header and
    one line per row, each with the name the model gives to that id. *)
Theorem main_succeeds
    (mf od meth : string) (garg : option string) (gl : option (list string))
    (w w1 w2 : World) (self0 : Knockout) (m : Model) (table : list (Row Float)) :
  Knockout_init mf od meth w = (w1, Ok self0) →
  od ≠ EmptyString →
  is_dir (fs w1) od = true →
  is_dir (fs w1) (out_res_of od (out_name_of mf)) = false →
  match garg with
  | None => gl = None
  | Some path => ∃ raw, files (fs w1) !! path = Some raw
                        ∧ gl = Some (read_gene_list raw)
  end →
  load_model_from_file mf no_kwargs w1 = (w2, Ok m) →
  single_gene_deletion (Some m) gl meth = Ok table →
  Forall (λ r, ∃ g, g ∈ genes m ∧ ids r = [gene_id g]) table →
  (main (mkArgs mf od meth garg) w).2 = Ok tt
  ∧ ∃ rows,
      files (fs (main (mkArgs mf od meth garg) w).1)
      = <[od +:+ "/" +:+ out_name_of mf +:+ "_knock_res.txt"
            := header_line +:+ concat_str (row_line <$> rows)]> (files (fs w2))
      ∧ Forall2 (λ r o, ids r = [o_ids o] ∧ growth r = o_growth o
                        ∧ status r = o_status o
                        ∧ name_of_last (o_ids o) (genes m) = Some (o_name o))
          table rows.
Proof.
  intros Hinit Hod Hdir Hfile Hgl Hload Hsgd Hrows.
  assert (fs w2 = fs w1) as Hfs.
  { pose proof (proj1 (load_model_from_file_fs mf no_kwargs w1)) as Hf.
    by rewrite Hload in Hf. }
  pose proof (Knockout_init_Ok _ _ _ _ _ _ Hinit) as ->.
  set (self0 := mkKnockout mf od meth None None ∅ (out_name_of mf)
                  (out_res_of od (out_name_of mf))) in *.
  set (self1 := mkKnockout mf od meth gl None ∅ (out_name_of mf)
                  (out_res_of od (out_name_of mf))).
  assert (main_gene_list garg self0 w1 = (w1, Ok self1)) as Hstep2.
  { destruct garg as [path|].
    - destruct Hgl as (raw & Hraw & ->).
      unfold main_gene_list, open_read. unfold_M. by rewrite Hraw.
    - by subst gl. }
  set (g := update_gene_info ∅ (genes m)).
  set (self2 := set_gene_info (set_model_obj self1 m) g).
  assert (Forall (λ r, ∃ i rest, ids r = i :: rest ∧ is_Some (g !! i)) table)
    as Hall.
  { eapply Forall_impl; [exact Hrows|]. intros r (g0 & Hin & Hr).
    exists (gene_id g0), []. split; [done|].
    apply elem_of_dom. unfold g. rewrite update_gene_info_dom.
    apply elem_of_union_l, elem_of_list_to_set. by apply list_elem_of_fmap_2. }
  destruct (apply_series_both _ _ Hall) as (idcol & namecol & Hids & Hn).
  rewrite main_run. cbn [arg_model_file arg_outdir arg_method arg_gene_list].
  rewrite Hinit, Hstep2.
  rewrite (load_data_run self1 w1 w2 m Hload). cbn zeta.
  cbn [gene_info self1]. fold g. fold self2.
  rewrite (run_knockout_ok self2 _ table idcol namecol Hsgd Hids Hn);
    [|by cbn; rewrite Hfs, parent_dir_out_res|by cbn; rewrite Hfs].
  cbn [fst snd fs files set_fs add_log out_res self2 set_gene_info
       set_model_obj self1].
  split; [done|].
  exists (zip_rows table idcol namecol). rewrite to_csv_text_lines.
  split; [done|].
  assert (Forall2 (λ i n, g !! i = Some n) idcol namecol) as Hjoin.
  { clear -Hn. revert namecol Hn. induction idcol as [|i idcol IH];
      intros namecol; cbn.
    - intros [= <-]. constructor.
    - unfold getitem at 1. destruct (g !! i) as [n|] eqn:Hi; [|done].
      destruct (apply_series (getitem g) idcol) as [ns|] eqn:Hs; [|done].
      intros [= <-]. constructor; [done|by apply IH]. }
  pose proof (zip_rows_joined g table idcol namecol
                (apply_series_first_of_set _ _ Hids) Hjoin) as HF2.
  clear -HF2 Hrows. induction HF2 as [|r o table rows Hro _ IH].
  - constructor.
  - apply Forall_cons in Hrows as [(g0 & _ & Hr) Hrows].
    constructor; [|by apply IH].
    destruct Hro as ((rest & Hids) & Hgr & Hst & Hname).
    rewrite Hr in Hids. injection Hids as Hid _.
    split_and!; try done; [by rewrite Hr, Hid|].
    unfold g in Hname. rewrite update_gene_info_lookup, lookup_empty in Hname.
    by destruct (name_of_last (o_ids o) (genes m)).
Qed.

End MainMore.

(** X23: the gene list named on the command line is not there. *)
Lemma main_gene_list_file_missing_witness :
  let w := Toy.world_with "/data/m.xml" "A=alpha" in
  @main Toy.toy (mkArgs "/data/m.xml" "/out" "fba" (Some "/data/genes.txt")) w
  = (w, Raise (Exn FileNotFoundError "/data/genes.txt"))
  ∧ parser_calls
      (@main Toy.toy (mkArgs "/data/m.xml" "/out" "fba" (Some "/data/genes.txt")) w).1
    = parser_calls w.
Proof.
  intros w.
  apply (@main_gene_list_file_missing Toy.toy "/data/m.xml" "/out" "fba"
           "/data/genes.txt" w w
           (mkKnockout "/data/m.xml" "/out" "fba" None None ∅ "m"
              "/out/m_knock_res.txt")); reflexivity.
Defined.


(** X25 on a Windows host: the directory is made, the gene list has
    Windows line ends, the two rows are written. *)
Lemma main_succeeds_witness :
  let crlf := String CR (str1 LF) in
  let files0 : gmap string string :=
    {[ "/data/m.xml" := "A=alpha" +:+ str1 LF +:+ "B=beta";
       "/data/genes.txt" := "A" +:+ crlf +:+ "B" +:+ crlf ]} in
  let w := mkWorld (mkFS files0 ∅) [] [] [] in
  let args := mkArgs "/data/m.xml" "/new" "fba" (Some "/data/genes.txt") in
  (@main Lab.lab args w).2 = Ok tt
  ∧ ∃ rows,
      files (fs (@main Lab.lab args w).1)
      = <[ "/new/m_knock_res.txt"
           := @header_line Lab.lab +:+ concat_str (@row_line Lab.lab <$> rows) ]>
          files0
      ∧ length rows = 2.
Proof.
  intros crlf files0 w args.
  pose (w1 := mkWorld (mkFS files0 {[ "/new" ]}) [] [] ["mkdir -p /new"]).
  pose (w2 := add_parser_call (Sbml, "/data/m.xml")
                (add_log (LogInfo "load_model_from_file" "xml") w1)).
  destruct (@main_succeeds Lab.lab "/data/m.xml" "/new" "fba"
              (Some "/data/genes.txt") (Some ["A"; "B"]) w w1 w2
              (mkKnockout "/data/m.xml" "/new" "fba" None None ∅ "m"
                 "/new/m_knock_res.txt")
              [mkGene "A" "alpha"; mkGene "B" "beta"]
              [Lab.lab_row "A"; Lab.lab_row "B"])
    as (Hok & rows & Hfiles & Hrows).
  - vm_compute. reflexivity.
  - done.
  - vm_compute. reflexivity.
  - vm_compute. reflexivity.
  - eexists. split; vm_compute; reflexivity.
  - vm_compute. reflexivity.
  - reflexivity.
  - repeat constructor.
    + exists (mkGene "A" "alpha"). split; [|done]. apply list_elem_of_here.
    + exists (mkGene "B" "beta"). split; [|done].
      apply list_elem_of_further, list_elem_of_here.
  - split; [exact Hok|]. exists rows. split; [exact Hfiles|].
    by apply Forall2_length in Hrows as <-.
Defined.

(** ** Further properties of the gene list *)

Section GeneListMore.

Lemma keepends_nil text : keepends text = [] → text = EmptyString.
Proof.
  destruct text as [|c rest]; [done|]. cbn [keepends].
  destruct (Ascii.eqb c LF); [done|]. by destruct (keepends rest).
Qed.

Lemma universal_newlines_nil raw :
  universal_newlines raw = EmptyString → raw = EmptyString.
Proof.
  destruct raw as [|c rest]; [done|]. cbn [universal_newlines].
  destruct (Ascii.eqb c CR); [|done].
  destruct rest as [|d r]; [done|].
  by destruct (Ascii.eqb_spec d LF) as [->|_].
Qed.

Lemma keepends_last_line last :
  last ≠ EmptyString → char_in LF last = false → keepends last = [last].
Proof.
  induction last as [|c rest IH]; [done|]. intros _.
  cbn [char_in]. rewrite orb_false_iff, eqb_LF_sym. intros [Hc Hrest].
  cbn [keepends]. rewrite Hc. destruct rest as [|d rest']; [done|].
  by rewrite IH.
Qed.

Lemma universal_newlines_crlf l rest :
  char_in CR l = false →
  universal_newlines (l +:+ String CR (String LF rest))
  = l +:+ String LF (universal_newlines rest).
Proof.
  induction l as [|c l IH]; [done|].
  cbn [char_in]. rewrite orb_false_iff. intros [Hc Hl].
  rewrite !app_cons. cbn [universal_newlines].
  by rewrite Ascii.eqb_sym, Hc, (IH Hl).
Qed.

(** X26: the list handed to [set_gene_list] is empty only for an empty
    file; in that case the gene list is the empty list, not [None], and
    any other file gives at least one id (an empty one for a file that
    is a single line end). *)
Theorem read_gene_list_empty_iff (raw : string) :
  read_gene_list raw = [] ↔ raw = EmptyString.
Proof.
  split; [|by intros ->].
  unfold read_gene_list, readlines. intros Hnil.
  apply universal_newlines_nil, keepends_nil.
  by destruct (keepends (universal_newlines raw)).
Qed.

(** X27: a last line without a line end is kept like the others. *)
Theorem read_gene_list_unterminated_last_line (ls : list string) (last : string) :
  Forall (λ l, char_in LF l = false ∧ char_in CR l = false) ls →
  last ≠ EmptyString →
  char_in LF last = false →
  char_in CR last = false →
  read_gene_list (concat_str ((λ l, l +:+ str1 LF) <$> ls) +:+ last)
  = (ls ++ [last])%list.
Proof.
  intros Hls Hne Hlf Hcr. unfold read_gene_list, readlines.
  rewrite universal_newlines_id.
  2: { rewrite char_in_app, Hcr, orb_false_r. apply concat_lines_no_CR.
       eapply Forall_impl; [exact Hls|]. by intros l [_ ?]. }
  induction Hls as [|l ls [Hl _] _ IH].
  - rewrite app_empty_l. cbn [fmap list_fmap concat_str].
    rewrite (keepends_last_line _ Hne Hlf). cbn.
    by rewrite (proj2 (strip_line _ Hlf)).
  - cbn [fmap list_fmap concat_str]. rewrite !string_app_assoc.
    change (str1 LF +:+ ?t) with (String LF t).
    rewrite (keepends_line _ _ Hl). cbn [map].
    by rewrite (proj1 (strip_line _ Hl)), IH.
Qed.

(** X28: a gene list with Windows line ends gives the same ids as the
    same list with Unix line ends. *)
Theorem read_gene_list_crlf (ls : list string) :
  Forall (λ l, char_in LF l = false ∧ char_in CR l = false) ls →
  read_gene_list (concat_str ((λ l, l +:+ String CR (str1 LF)) <$> ls)) = ls
  ∧ read_gene_list (concat_str ((λ l, l +:+ str1 LF) <$> ls)) = ls.
Proof.
  intros Hls.
  assert (universal_newlines (concat_str ((λ l, l +:+ String CR (str1 LF)) <$> ls))
          = concat_str ((λ l, l +:+ str1 LF) <$> ls)) as Hcrlf.
  { induction Hls as [|l ls [_ Hcr] _ IH]; [done|].
    cbn [fmap list_fmap concat_str]. rewrite !string_app_assoc.
    change (String CR (str1 LF) +:+ ?t) with (String CR (String LF t)).
    change (str1 LF +:+ ?t) with (String LF t).
    by rewrite (universal_newlines_crlf _ _ Hcr), IH. }
  assert (lines_newline_stripped (concat_str ((λ l, l +:+ str1 LF) <$> ls)) = ls)
    as Hback.
  { apply read_lines_back. eapply Forall_impl; [exact Hls|]. by intros l [? _]. }
  split.
  - unfold read_gene_list, readlines. by rewrite Hcrlf.
  - unfold read_gene_list, readlines. rewrite universal_newlines_id; [done|].
    apply concat_lines_no_CR. eapply Forall_impl; [exact Hls|]. by intros l [_ ?].
Qed.

End GeneListMore.

(** X27 on a file whose last line has no line end. *)
Lemma read_gene_list_unterminated_witness :
  read_gene_list ("PP_1614" +:+ str1 LF +:+ "PP_1167") = ["PP_1614"; "PP_1167"].
Proof.
  apply (read_gene_list_unterminated_last_line ["PP_1614"] "PP_1167");
    [repeat constructor|done|reflexivity|reflexivity].
Defined.

(** X28 on two ids. *)
Lemma read_gene_list_crlf_witness :
  read_gene_list ("PP_1614" +:+ String CR (str1 LF) +:+ "PP_1167"
                  +:+ String CR (str1 LF))
  = ["PP_1614"; "PP_1167"]
  ∧ read_gene_list ("PP_1614" +:+ str1 LF +:+ "PP_1167" +:+ str1 LF)
    = ["PP_1614"; "PP_1167"].
Proof.
  apply (read_gene_list_crlf ["PP_1614"; "PP_1167"]). repeat constructor.
Defined.

(** X11 on a directory that is already there. *)
Lemma Knockout_init_succeeds_witness :
  ∃ self, (@Knockout_init Toy.toy "/data/m.xml" "/out" "fba"
             (Toy.world_with "/data/m.xml" "A=alpha")).2 = Ok self.
Proof.
  apply (proj1 (@Knockout_init_succeeds_iff Toy.toy "/data/m.xml" "/out" "fba"
                  (Toy.world_with "/data/m.xml" "A=alpha"))).
  left. reflexivity.
Defined.



(** X26 on the empty file. *)
Lemma read_gene_list_empty_witness : read_gene_list EmptyString = [].
Proof. apply (proj2 (read_gene_list_empty_iff EmptyString)). reflexivity. Defined.
